(** * Verification of the ERA document field-extraction engine

    Shallow embedding of [src/era/pdf_extractor.py] and of the document-type
    classifier of [src/web/routes/era_dashboard.py].

    Modelling conventions.
    - A Python [str] is a list of Unicode code points ([N]).  String
      constants are written [u "..."], the UTF-8 decoding of a literal.
    - The character tables ([\s], [\d], [\w], case mapping) are exact on
      ASCII; [\s] is Python's full [str.isspace] table, [\w] and the case
      mapping additionally cover Latin-1.  Other code points are carried
      through as uncased symbols.
    - Python's [re] module is modelled by a backtracking matcher over a
      regular-expression syntax tree; constant patterns are parsed from
      the very pattern strings of the source.
    - A [dict] is an insertion-ordered association list with unique keys.
    - A [float] is an exact rational ([Q]); binary rounding is not modelled.
    - Exceptions are an error monad; [try ... except Exception] is a handler. *)

From Stdlib Require Import List NArith ZArith QArith Qround Bool Arith Lia.
From Stdlib Require String Ascii.
Import ListNotations String.StringSyntax Ascii.AsciiSyntax.
Delimit Scope string_scope with string.
Delimit Scope char_scope with char.

(** ** Python strings *)

Module Py.

Abbreviation char := N (only parsing).
Abbreviation str := (list N) (only parsing).

Local Open Scope N_scope.

(** UTF-8 decoding of a literal; malformed input is passed through bytewise. *)
Fixpoint utf8_decode (bs : list N) : str :=
  match bs with
  | [] => []
  | b :: r =>
    if b <? 192 then b :: utf8_decode r
    else if b <? 224 then
      match r with
      | b1 :: r1 => ((b - 192) * 64 + (b1 - 128)) :: utf8_decode r1
      | [] => [b]
      end
    else if b <? 240 then
      match r with
      | b1 :: b2 :: r2 =>
          ((b - 224) * 4096 + (b1 - 128) * 64 + (b2 - 128)) :: utf8_decode r2
      | _ => b :: utf8_decode r
      end
    else
      match r with
      | b1 :: b2 :: b3 :: r3 =>
          ((b - 240) * 262144 + (b1 - 128) * 4096 + (b2 - 128) * 64 + (b3 - 128))
            :: utf8_decode r3
      | _ => b :: utf8_decode r
      end
  end.

Definition u (s : String.string) : str :=
  utf8_decode (map Ascii.N_of_ascii (String.list_ascii_of_string s)).
Arguments u s%_string.

Definition ch (a : Ascii.ascii) : char := Ascii.N_of_ascii a.
Arguments ch a%_char.

Definition nl : char := 10.

Definition in_range (lo hi c : char) : bool := (lo <=? c) && (c <=? hi).

(** [str.isspace] on one character, which is also [\s] of [re]. *)
Definition is_space (c : char) : bool :=
  in_range 9 13 c || in_range 28 32 c || (c =? 133) || (c =? 160)
  || (c =? 5760) || in_range 8192 8202 c || (c =? 8232) || (c =? 8233)
  || (c =? 8239) || (c =? 8287) || (c =? 12288).

(** [\d] of [re]: decimal digits (the ASCII block). *)
Definition is_digit (c : char) : bool := in_range 48 57 c.

Definition is_upper_ascii (c : char) : bool := in_range 65 90 c.
Definition is_lower_ascii (c : char) : bool := in_range 97 122 c.

(** [\w] of [re]: alphanumerics and the underscore (ASCII and Latin-1). *)
Definition is_word (c : char) : bool :=
  is_digit c || is_upper_ascii c || is_lower_ascii c || (c =? 95)
  || (c =? 170) || (c =? 178) || (c =? 179) || (c =? 181) || (c =? 185)
  || (c =? 186) || in_range 188 190 c || in_range 192 214 c
  || in_range 216 246 c || in_range 248 255 c.

Definition lower_char (c : char) : char :=
  if is_upper_ascii c then c + 32
  else if in_range 192 222 c && negb (c =? 215) then c + 32
  else c.

Definition upper_char (c : char) : char :=
  if is_lower_ascii c then c - 32
  else if in_range 224 254 c && negb (c =? 247) then c - 32
  else c.

(** [s.lower()] *)
Definition lower (s : str) : str := map lower_char s.

Fixpoint lstrip_by (p : char -> bool) (s : str) : str :=
  match s with
  | c :: r => if p c then lstrip_by p r else s
  | [] => []
  end.

Definition rstrip_by (p : char -> bool) (s : str) : str :=
  rev (lstrip_by p (rev s)).

(** [s.strip()] *)
Definition strip (s : str) : str := rstrip_by is_space (lstrip_by is_space s).

Definition str_eqb (a b : str) : bool :=
  if list_eq_dec N.eq_dec a b then true else false.

Fixpoint starts_with (p s : str) : bool :=
  match p, s with
  | [], _ => true
  | a :: p', b :: s' => (a =? b) && starts_with p' s'
  | _ :: _, [] => false
  end.

(** [sub in s] *)
Fixpoint contains (sub s : str) : bool :=
  starts_with sub s ||
  match s with
  | [] => false
  | _ :: r => contains sub r
  end.

(** [s.find(sub)]: the first index, [None] for Python's -1. *)
Fixpoint find_from (sub s : str) (i : nat) : option nat :=
  if starts_with sub s then Some i
  else match s with
       | [] => None
       | _ :: r => find_from sub r (S i)
       end.

Definition find (s sub : str) : option nat := find_from sub s 0.

(** [s.count(sub)] for a non-empty [sub]: non-overlapping occurrences. *)
Fixpoint count_skip (sub s : str) (skip : nat) : nat :=
  match s with
  | [] => 0%nat
  | _ :: r =>
    match skip with
    | S k => count_skip sub r k
    | O => if starts_with sub s
           then S (count_skip sub r (Nat.pred (length sub)))
           else count_skip sub r 0
    end
  end.

Definition count (s sub : str) : nat := count_skip sub s 0.

(** [s.split(sep)] for a one-character separator. *)
Fixpoint split_on (sep : char) (s : str) : list str :=
  match s with
  | [] => [[]]
  | c :: r =>
    if c =? sep then [] :: split_on sep r
    else match split_on sep r with
         | l :: ls => (c :: l) :: ls
         | [] => [[c]]
         end
  end.

(** [s.replace(old, new)] for a one-character [old]. *)
Definition replace_char (old : char) (new : str) (s : str) : str :=
  flat_map (fun c => if c =? old then new else [c]) s.

(** [s[a:a+n]] *)
Definition slice (s : str) (a n : nat) : str := firstn n (skipn a s).

(** [s.isdigit()] *)
Definition isdigit (s : str) : bool :=
  match s with
  | [] => false
  | _ => forallb (fun c => is_digit c || (c =? 178) || (c =? 179) || (c =? 185)) s
  end.

(** [str(n)] for a non-negative integer. *)
Fixpoint digits_of (fuel : nat) (n : N) (acc : str) : str :=
  match fuel with
  | O => acc
  | S f => let acc' := (48 + n mod 10) :: acc in
           if n <? 10 then acc' else digits_of f (n / 10) acc'
  end.

Definition str_of_nat (n : nat) : str :=
  digits_of (S n) (N.of_nat n) [].

End Py.
Export Py.

(** ** Python's [re] module *)

Module Re.

Local Open Scope N_scope.

Inductive cset_item :=
| CChar (c : char)
| CRange (lo hi : char)
| CDigit
| CSpace
| CWord.

Inductive re :=
| Eps
| Chr (c : char)
| Any
| CSet (neg : bool) (items : list cset_item)
| Bol
| Eol
| WordB
| Cat (r1 r2 : re)
| Alt (r1 r2 : re)
| Rep (lo : nat) (hi : option nat) (greedy : bool) (r : re)
| Grp (i : nat) (r : re)
| Ahead (r : re)
| Behind (r : re).

(** [re.IGNORECASE] and [re.DOTALL] *)
Record flags := { icase : bool; dotall : bool }.

Definition no_flags := {| icase := false; dotall := false |}.
Definition IGNORECASE := {| icase := true; dotall := false |}.
Definition IGNORECASE_DOTALL := {| icase := true; dotall := true |}.

(** The literal pattern produced by [re.escape(s)]. *)
Definition lit (s : str) : re := fold_right (fun c r => Cat (Chr c) r) Eps s.

Definition item_has (it : cset_item) (c : char) : bool :=
  match it with
  | CChar x => c =? x
  | CRange lo hi => in_range lo hi c
  | CDigit => is_digit c
  | CSpace => is_space c
  | CWord => is_word c
  end.

Definition set_has (fl : flags) (items : list cset_item) (c : char) : bool :=
  existsb (fun it =>
             item_has it c
             || (icase fl && (item_has it (lower_char c) || item_has it (upper_char c))))
          items.

Definition chr_eq (fl : flags) (p c : char) : bool :=
  (c =? p) || (icase fl && (lower_char c =? lower_char p)).

(** Matcher state: the text before the cursor (nearest character first),
    the text after it, and the groups captured so far (latest first). *)
Record mstate := { before : str; after : str; caps : list (nat * str) }.

Definition advance (st : mstate) : mstate :=
  match after st with
  | c :: r => {| before := c :: before st; after := r; caps := caps st |}
  | [] => st
  end.

Definition set_cap (i : nat) (s : str) (st : mstate) : mstate :=
  {| before := before st; after := after st; caps := (i, s) :: caps st |}.

Definition consumed (st st' : mstate) : str :=
  firstn (length (after st) - length (after st')) (after st).

Fixpoint rewind (n : nat) (st : mstate) : option mstate :=
  match n with
  | O => Some st
  | S k => match before st with
           | c :: b => rewind k {| before := b; after := c :: after st; caps := caps st |}
           | [] => None
           end
  end.

Definition at_word_boundary (st : mstate) : bool :=
  let l := match before st with c :: _ => is_word c | [] => false end in
  let r := match after st with c :: _ => is_word c | [] => false end in
  xorb l r.

Definition kont := mstate -> option mstate.

Fixpoint rep_min (step : mstate -> kont -> option mstate) (n : nat)
         (st : mstate) (k : kont) : option mstate :=
  match n with
  | O => k st
  | S n' => step st (fun st' => rep_min step n' st' k)
  end.

(** Optional iterations; every iteration has to consume input. *)
Fixpoint rep_opt (step : mstate -> kont -> option mstate) (greedy : bool)
         (fuel : nat) (st : mstate) (k : kont) : option mstate :=
  match fuel with
  | O => k st
  | S f =>
    let again := fun st' =>
      if (length (after st') <? length (after st))%nat
      then rep_opt step greedy f st' k else None in
    if greedy then
      match step st again with
      | Some r => Some r
      | None => k st
      end
    else
      match k st with
      | Some r => Some r
      | None => step st again
      end
  end.

(** Width of a fixed-width pattern (look-behind needs one). *)
Fixpoint width (r : re) : option nat :=
  match r with
  | Eps | Bol | Eol | WordB | Ahead _ | Behind _ => Some O
  | Chr _ | Any | CSet _ _ => Some 1%nat
  | Cat a b => match width a, width b with
               | Some x, Some y => Some (x + y)%nat
               | _, _ => None
               end
  | Alt a b => match width a, width b with
               | Some x, Some y => if (x =? y)%nat then Some x else None
               | _, _ => None
               end
  | Rep lo (Some hi) _ a => if (lo =? hi)%nat
                            then match width a with
                                 | Some x => Some (lo * x)%nat
                                 | None => None
                                 end
                            else None
  | Rep _ None _ _ => None
  | Grp _ a => width a
  end.

(** The backtracking matcher, in continuation-passing style. *)
Fixpoint run (fl : flags) (r : re) (st : mstate) (k : kont) {struct r}
  : option mstate :=
  match r with
  | Eps => k st
  | Chr p =>
    match after st with
    | c :: _ => if chr_eq fl p c then k (advance st) else None
    | [] => None
    end
  | Any =>
    match after st with
    | c :: _ => if dotall fl || negb (c =? nl) then k (advance st) else None
    | [] => None
    end
  | CSet neg items =>
    match after st with
    | c :: _ => if xorb neg (set_has fl items c) then k (advance st) else None
    | [] => None
    end
  | Bol => match before st with [] => k st | _ :: _ => None end
  | Eol =>
    match after st with
    | [] => k st
    | c :: [] => if c =? nl then k st else None
    | _ :: _ :: _ => None
    end
  | WordB => if at_word_boundary st then k st else None
  | Cat r1 r2 => run fl r1 st (fun st' => run fl r2 st' k)
  | Alt r1 r2 =>
    match run fl r1 st k with
    | Some res => Some res
    | None => run fl r2 st k
    end
  | Rep lo hi greedy r' =>
    rep_min (run fl r') lo st
            (fun st' =>
               rep_opt (run fl r') greedy
                       (match hi with
                        | Some h => h - lo
                        | None => length (after st')
                        end)%nat
                       st' k)
  | Grp i r' => run fl r' st (fun st' => k (set_cap i (consumed st st') st'))
  | Ahead r' =>
    match run fl r' st (fun st' => Some st') with
    | Some _ => k st
    | None => None
    end
  | Behind r' =>
    match width r' with
    | Some w =>
      match rewind w st with
      | Some st0 =>
        match run fl r' st0
                  (fun st' => if (length (after st') =? length (after st))%nat
                              then Some st' else None) with
        | Some _ => k st
        | None => None
        end
      | None => None
      end
    | None => None
    end
  end.

(** Match objects *)
Record match_obj := {
  m_start : nat;
  m_end : nat;
  m_whole : str;
  m_groups : list (nat * str)
}.

Fixpoint assoc_nat (i : nat) (l : list (nat * str)) : option str :=
  match l with
  | [] => None
  | (j, s) :: r => if (i =? j)%nat then Some s else assoc_nat i r
  end.

(** [m.group(i)] for a group that took part in the match; every group of
    the patterns below lies outside any optional part. *)
Definition group (m : match_obj) (i : nat) : str :=
  match i with
  | O => m_whole m
  | _ => match assoc_nat i (m_groups m) with
         | Some s => s
         | None => []
         end
  end.

Definition match_at (fl : flags) (r : re) (bef aft : str) : option match_obj :=
  let st := {| before := bef; after := aft; caps := [] |} in
  match run fl r st (fun st' => Some st') with
  | Some e => Some {| m_start := length bef;
                      m_end := (length bef + (length aft - length (after e)))%nat;
                      m_whole := consumed st e;
                      m_groups := caps e |}
  | None => None
  end.

Fixpoint search_at (fl : flags) (r : re) (bef aft : str) : option match_obj :=
  match match_at fl r bef aft with
  | Some m => Some m
  | None => match aft with
            | [] => None
            | c :: aft' => search_at fl r (c :: bef) aft'
            end
  end.

(** [re.search(r, s, flags)] *)
Definition search (fl : flags) (r : re) (s : str) : option match_obj :=
  search_at fl r [] s.

(** [re.match(r, s, flags)] *)
Definition rmatch (fl : flags) (r : re) (s : str) : option match_obj :=
  match_at fl r [] s.

(** All non-overlapping matches, left to right. *)
Fixpoint finditer_at (fl : flags) (r : re) (bef aft : str) (skip : nat)
  : list match_obj :=
  match skip with
  | S k => match aft with
           | [] => []
           | c :: aft' => finditer_at fl r (c :: bef) aft' k
           end
  | O =>
    match match_at fl r bef aft with
    | Some m =>
      m :: match aft with
           | [] => []
           | c :: aft' => finditer_at fl r (c :: bef) aft' (Nat.pred (length (m_whole m)))
           end
    | None => match aft with
              | [] => []
              | c :: aft' => finditer_at fl r (c :: bef) aft' 0
              end
    end
  end.

Fixpoint ngroups (r : re) : nat :=
  match r with
  | Cat a b | Alt a b => (ngroups a + ngroups b)%nat
  | Rep _ _ _ a | Ahead a | Behind a => ngroups a
  | Grp _ a => S (ngroups a)
  | _ => O
  end.

(** [re.findall(r, s, flags)] for patterns with at most one group: the
    group if there is one, the whole match otherwise. *)
Definition findall (fl : flags) (r : re) (s : str) : list str :=
  map (fun m => group m (ngroups r)) (finditer_at fl r [] s 0).

(** Replacement templates: literal text and [\1]-style group references. *)
Fixpoint expand (tpl : str) (m : match_obj) : str :=
  match tpl with
  | [] => []
  | c :: r =>
    if c =? ch "\" then
      match r with
      | d :: r' => if is_digit d then group m (N.to_nat (d - 48)) ++ expand r' m
                   else c :: expand r m
      | [] => [c]
      end
    else c :: expand r m
  end.

Fixpoint sub_at (fl : flags) (r : re) (tpl : str) (bef aft : str) (skip : nat)
  : str :=
  match skip with
  | S k => match aft with
           | [] => []
           | c :: aft' => sub_at fl r tpl (c :: bef) aft' k
           end
  | O =>
    match match_at fl r bef aft with
    | Some m =>
      expand tpl m ++
      match aft with
      | [] => []
      | c :: aft' =>
        match m_whole m with
        | [] => c :: sub_at fl r tpl (c :: bef) aft' 0
        | _ :: w => sub_at fl r tpl (c :: bef) aft' (length w)
        end
      end
    | None => match aft with
              | [] => []
              | c :: aft' => c :: sub_at fl r tpl (c :: bef) aft' 0
              end
    end
  end.

(** [re.sub(r, tpl, s, flags=fl)] *)
Definition sub (fl : flags) (r : re) (tpl : str) (s : str) : str :=
  sub_at fl r tpl [] s 0.

(** *** Pattern syntax *)

Fixpoint parse_nat (s : str) (acc : nat) : nat * str :=
  match s with
  | c :: r => if is_digit c
              then parse_nat r (acc * 10 + N.to_nat (c - 48))%nat
              else (acc, s)
  | [] => (acc, [])
  end.

Definition with_laziness (lo : nat) (hi : option nat) (a : re) (s : str)
  : re * str :=
  match s with
  | q :: r => if q =? ch "?" then (Rep lo hi false a, r)
              else (Rep lo hi true a, s)
  | [] => (Rep lo hi true a, [])
  end.

(** A quantifier after the atom [a], if there is one. *)
Definition parse_quant (a : re) (s : str) : re * str :=
  match s with
  | c :: r =>
    if c =? ch "*" then with_laziness 0 None a r
    else if c =? ch "+" then with_laziness 1 None a r
    else if c =? ch "?" then with_laziness 0 (Some 1%nat) a r
    else if c =? ch "{" then
      let (lo, r1) := parse_nat r 0 in
      match r1 with
      | d :: r2 =>
        if d =? ch "}" then with_laziness lo (Some lo) a r2
        else if d =? ch "," then
          match r2 with
          | e :: r3 =>
            if e =? ch "}" then with_laziness lo None a r3
            else let (hi, r4) := parse_nat r2 0 in
                 match r4 with
                 | f :: r5 => if f =? ch "}" then with_laziness lo (Some hi) a r5
                              else (a, s)
                 | [] => (a, s)
                 end
          | [] => (a, s)
          end
        else (a, s)
      | [] => (a, s)
      end
    else (a, s)
  | [] => (a, s)
  end.

Definition is_alnum_ascii (c : char) : bool :=
  is_digit c || is_upper_ascii c || is_lower_ascii c.

(** A backslash escape that stands for a character class. *)
Definition class_escape (e : char) : option cset_item :=
  if e =? ch "d" then Some CDigit
  else if e =? ch "s" then Some CSpace
  else if e =? ch "w" then Some CWord
  else None.

(** A backslash escape that stands for one character. *)
Definition char_escape (e : char) : option char :=
  if e =? ch "n" then Some nl
  else if e =? ch "t" then Some 9
  else if e =? ch "r" then Some 13
  else if is_alnum_ascii e then None
  else Some e.

(** One member of a character set: a class or a character. *)
Definition set_atom (s : str) : option ((cset_item + char) * str) :=
  match s with
  | [] => None
  | c :: r =>
    if c =? ch "\" then
      match r with
      | e :: r1 =>
        match class_escape e with
        | Some it => Some (inl it, r1)
        | None => match char_escape e with
                  | Some x => Some (inr x, r1)
                  | None => None
                  end
        end
      | [] => None
      end
    else Some (inr c, r)
  end.

Fixpoint parse_set (fuel : nat) (s : str) (acc : list cset_item)
  : option (list cset_item * str) :=
  match fuel with
  | O => None
  | S f =>
    match s with
    | [] => None
    | c :: r =>
      if c =? ch "]" then Some (rev acc, r)
      else
        match set_atom s with
        | None => None
        | Some (inl it, r1) => parse_set f r1 (it :: acc)
        | Some (inr lo, r1) =>
          match r1 with
          | d :: e :: _ =>
            if (d =? ch "-") && negb (e =? ch "]") then
              match set_atom (tl r1) with
              | Some (inr hi, r2) => parse_set f r2 (CRange lo hi :: acc)
              | _ => None
              end
            else parse_set f r1 (CChar lo :: acc)
          | _ => parse_set f r1 (CChar lo :: acc)
          end
        end
    end
  end.

Definition expect_close (res : option (re * str * nat)) (wrap : re -> re)
  : option (re * str * nat) :=
  match res with
  | Some (r, c :: s, g) => if c =? ch ")" then Some (wrap r, s, g) else None
  | _ => None
  end.

(** Recursive descent; [g] is the number of the next capturing group. *)
Fixpoint parse_alt (fuel : nat) (s : str) (g : nat) {struct fuel}
  : option (re * str * nat) :=
  match fuel with
  | O => None
  | S f =>
    match parse_seq f s g with
    | Some (r1, c :: s1, g1) =>
      if c =? ch "|" then
        match parse_alt f s1 g1 with
        | Some (r2, s2, g2) => Some (Alt r1 r2, s2, g2)
        | None => None
        end
      else Some (r1, c :: s1, g1)
    | other => other
    end
  end
with parse_seq (fuel : nat) (s : str) (g : nat) {struct fuel}
  : option (re * str * nat) :=
  match fuel with
  | O => None
  | S f =>
    match s with
    | [] => Some (Eps, [], g)
    | c :: _ =>
      if (c =? ch "|") || (c =? ch ")") then Some (Eps, s, g)
      else
        match parse_atom f s g with
        | Some (a, s1, g1) =>
          let (a', s2) := parse_quant a s1 in
          match parse_seq f s2 g1 with
          | Some (Eps, s3, g3) => Some (a', s3, g3)
          | Some (r, s3, g3) => Some (Cat a' r, s3, g3)
          | None => None
          end
        | None => None
        end
    end
  end
with parse_atom (fuel : nat) (s : str) (g : nat) {struct fuel}
  : option (re * str * nat) :=
  match fuel with
  | O => None
  | S f =>
    match s with
    | [] => None
    | c :: r =>
      if c =? ch "(" then
        if starts_with (u "?:") r then
          expect_close (parse_alt f (skipn 2 r) g) (fun x => x)
        else if starts_with (u "?=") r then
          expect_close (parse_alt f (skipn 2 r) g) Ahead
        else if starts_with (u "?<=") r then
          expect_close (parse_alt f (skipn 3 r) g) Behind
        else if starts_with (u "?") r then None
        else expect_close (parse_alt f r (S g)) (Grp g)
      else if c =? ch "[" then
        match r with
        | n :: r1 =>
          if n =? ch "^" then
            match parse_set f r1 [] with
            | Some (items, s1) => Some (CSet true items, s1, g)
            | None => None
            end
          else
            match parse_set f r [] with
            | Some (items, s1) => Some (CSet false items, s1, g)
            | None => None
            end
        | [] => None
        end
      else if c =? ch "." then Some (Any, r, g)
      else if c =? ch "^" then Some (Bol, r, g)
      else if c =? ch "$" then Some (Eol, r, g)
      else if c =? ch "\" then
        match r with
        | e :: r1 =>
          if e =? ch "b" then Some (WordB, r1, g)
          else match class_escape e with
               | Some it => Some (CSet false [it], r1, g)
               | None => match char_escape e with
                         | Some x => Some (Chr x, r1, g)
                         | None => None
                         end
               end
        | [] => None
        end
      else if (c =? ch "*") || (c =? ch "+") || (c =? ch "?") then None
      else Some (Chr c, r, g)
    end
  end.

(** [re.compile(p)]; [None] stands for [re.error]. *)
Definition compile (p : str) : option re :=
  match parse_alt (3 * length p + 3) p 1 with
  | Some (r, [], _) => Some r
  | _ => None
  end.

(** A constant pattern of the source, given as its raw string. *)
Definition pattern (p : String.string) : re :=
  match compile (u p) with
  | Some r => r
  | None => CSet false []
  end.
Arguments pattern p%_string.

End Re.

(** ** Dictionaries, values, results *)

(** A Python [dict] with string keys: insertion-ordered, keys unique. *)
Definition dict (V : Type) := list (str * V).

Fixpoint dict_get {V} (d : dict V) (k : str) : option V :=
  match d with
  | [] => None
  | (k', v) :: r => if str_eqb k k' then Some v else dict_get r k
  end.

(** [d[k] = v] *)
Fixpoint dict_set {V} (d : dict V) (k : str) (v : V) : dict V :=
  match d with
  | [] => [(k, v)]
  | (k', v') :: r => if str_eqb k k' then (k', v) :: r
                     else (k', v') :: dict_set r k v
  end.

(** [k in d] *)
Definition dict_mem {V} (k : str) (d : dict V) : bool :=
  match dict_get d k with Some _ => true | None => false end.

(** The values that end up in [data]. *)
#[local] Unset Elimination Schemes.
Inductive pyval :=
| VNone
| VStr (s : str)
| VInt (n : nat)
| VList (l : list pyval)
| VDict (d : list (str * pyval)).
#[local] Set Elimination Schemes.

(** Python truthiness *)
Definition truthy (v : pyval) : bool :=
  match v with
  | VNone => false
  | VStr s => negb (str_eqb s [])
  | VInt n => negb (n =? 0)%nat
  | VList l => match l with [] => false | _ => true end
  | VDict d => match d with [] => false | _ => true end
  end.

Definition of_opt (o : option str) : pyval :=
  match o with Some s => VStr s | None => VNone end.

(** [d.get(k)], with [None] for a missing key *)
Definition dict_get_val (d : dict pyval) (k : str) : pyval :=
  match dict_get d k with Some v => v | None => VNone end.

Record ExtractionResult := {
  success : bool;
  data : dict pyval;
  confidence : Q;
  field_confidences : dict Q;
  error : option str;
  warnings : list str;
  requires_review : bool;
  processing_time : Q
}.

(** ** Floats as rationals *)

Definition Qltb (x y : Q) : bool := negb (Qle_bool y x).

(** [round(x, 2)]: to the nearest hundredth, ties to even. *)
Definition round2 (x : Q) : Q :=
  let y := (x * 100)%Q in
  let f := Qfloor y in
  let d := (y - inject_Z f)%Q in
  let n := if Qltb d 0.5 then f
           else if Qltb 0.5 d then (f + 1)%Z
           else if Z.even f then f else (f + 1)%Z in
  (inject_Z n / 100)%Q.

(** ** Exceptions *)

Inductive exn_or (A : Type) :=
| Raise (msg : str)
| Ret (a : A).
Arguments Raise {A} msg.
Arguments Ret {A} a.

Definition bind {A B} (c : exn_or A) (k : A -> exn_or B) : exn_or B :=
  match c with
  | Raise msg => Raise msg
  | Ret a => k a
  end.

Notation "x <- c ;; k" := (bind c (fun x => k))
  (at level 61, c at next level, right associativity).
Notation "' p <- c ;; k" := (bind c (fun x => let 'p := x in k))
  (at level 61, p pattern, c at next level, right associativity).

(** ** The document reader (pdfplumber), at its boundary *)

Definition row := list (option str).
Definition table := list row.

(** A page: what [page.extract_text()] and [page.extract_tables()] do. *)
Record Page := {
  extract_text : exn_or (option str);
  extract_tables : exn_or (list table)
}.

(** What [pdfplumber.open(pdf_path)] does: it raises, or gives the pages. *)
Definition PDF := exn_or (list Page).

(** [x or ""] *)
Definition or_empty (o : option str) : str :=
  match o with Some s => s | None => [] end.

(** A cell is falsy when it is [None] or empty. *)
Definition cell_text (c : option str) : option str :=
  match c with
  | Some (x :: s) => Some (x :: s)
  | _ => None
  end.

(** [enumerate(l, start)] *)
Fixpoint enumerate {A} (start : nat) (l : list A) : list (nat * A) :=
  match l with
  | [] => []
  | x :: r => (start, x) :: enumerate (S start) r
  end.

(** A loop that returns from the function at the first hit. *)
Fixpoint first_hit {A B} (f : A -> option B) (l : list A) : option B :=
  match l with
  | [] => None
  | x :: r => match f x with
              | Some y => Some y
              | None => first_hit f r
              end
  end.

(** ** Utilities *)

(** [float(s)] succeeds: Python's grammar of float literals. *)
Fixpoint digitpart_rest (s : str) : str :=
  match s with
  | c :: r =>
    if is_digit c then digitpart_rest r
    else if (c =? ch "_")%N then
      match r with
      | d :: r' => if is_digit d then digitpart_rest r' else s
      | [] => s
      end
    else s
  | [] => []
  end.

Definition digitpart (s : str) : option str :=
  match s with
  | c :: r => if is_digit c then Some (digitpart_rest r) else None
  | [] => None
  end.

Definition drop_sign (s : str) : str :=
  match s with
  | c :: r => if (c =? ch "+")%N || (c =? ch "-")%N then r else s
  | [] => []
  end.

Definition exponent_to_end (s : str) : bool :=
  match s with
  | [] => true
  | e :: r =>
    if (e =? ch "e")%N || (e =? ch "E")%N then
      match digitpart (drop_sign r) with
      | Some [] => true
      | _ => false
      end
    else false
  end.

Definition float_ok (s : str) : bool :=
  let s := drop_sign (strip s) in
  if str_eqb (lower s) (u "inf") || str_eqb (lower s) (u "infinity")
     || str_eqb (lower s) (u "nan")
  then true
  else
    match digitpart s with
    | Some r =>
      match r with
      | c :: r1 =>
        if (c =? ch ".")%N then
          match digitpart r1 with
          | Some r2 => exponent_to_end r2
          | None => exponent_to_end r1
          end
        else exponent_to_end r
      | [] => true
      end
    | None =>
      match s with
      | c :: r1 =>
        if (c =? ch ".")%N then
          match digitpart r1 with
          | Some r2 => exponent_to_end r2
          | None => false
          end
        else false
      | [] => false
      end
    end.

Definition re_digit_gap := Re.pattern "(?<=\d)\s+(?=\d)".
Definition re_european := Re.pattern "^\d{1,3}(\.\d{3})+,\d{2}$".
Definition re_us := Re.pattern "^\d{1,3}(,\d{3})+\.\d{2}$".
Definition re_non_numeric := Re.pattern "[^\d.]".

Definition is_match (m : option Re.match_obj) : bool :=
  match m with Some _ => true | None => false end.

(** Normalize a money amount string. *)
Definition _normalize_amount (raw : str) : option str :=
  match raw with
  | [] => None
  | _ :: _ =>
    (* Remove spaces between digits *)
    let cleaned := Re.sub Re.no_flags re_digit_gap [] (strip raw) in
    let cleaned :=
      (* Handle European format: 1.234,56 -> 1234.56 *)
      if is_match (Re.rmatch Re.no_flags re_european cleaned) then
        replace_char (ch ",") (u ".") (replace_char (ch ".") [] cleaned)
      (* Handle format: 1,234.56 *)
      else if is_match (Re.rmatch Re.no_flags re_us cleaned) then
        replace_char (ch ",") [] cleaned
      (* Handle simple comma decimal: 1234,56 -> 1234.56 *)
      else if contains (u ",") cleaned && negb (contains (u ".") cleaned) then
        replace_char (ch ",") (u ".") cleaned
      else cleaned in
    (* Remove any remaining non-numeric chars except . *)
    let cleaned := Re.sub Re.no_flags re_non_numeric [] cleaned in
    if float_ok cleaned then Some cleaned else Some (strip raw)
  end.

(** Weighted confidence: key fields count double. *)
Definition _calculate_weighted_confidence (field_confidences : dict Q)
           (key_fields : list str) : Q :=
  match field_confidences with
  | [] => 0.0
  | _ :: _ =>
    let '(weighted_sum, total_weight) :=
      fold_left
        (fun acc fc =>
           let '(weighted_sum, total_weight) := acc in
           let '(field, conf) := fc in
           let weight := if existsb (str_eqb field) key_fields then 2.0 else 1.0 in
           (weighted_sum + conf * weight, total_weight + weight))
        field_confidences (0, 0) in
    if Qltb 0 total_weight then weighted_sum / total_weight else 0.0
  end.

(** Warnings about missing invoice fields. *)
Definition _validate_invoice_fields (fields : dict pyval) : list str :=
  (if truthy (dict_get_val fields (u "invoice_number")) then []
   else [u "Invoice number not detected"])
  ++ (if truthy (dict_get_val fields (u "invoice_date")) then []
      else [u "Invoice date not detected"])
  ++ (if truthy (dict_get_val fields (u "total_amount")) then []
      else [u "Total amount not detected"])
  ++ (if truthy (dict_get_val fields (u "vendor_name")) then []
      else [u "Vendor name not detected"])
  ++ (if truthy (dict_get_val fields (u "line_items")) then []
      else [u "No line items found — check if document has a table"]).

(** The standard error result; [elapsed] is the time measured by the clock. *)
Definition _error_result (error_msg : str) (elapsed : Q) : ExtractionResult :=
  {| success := false;
     data := [];
     confidence := 0.0;
     field_confidences := [];
     error := Some error_msg;
     warnings := [];
     requires_review := false;
     processing_time := round2 elapsed |}.

(** ** Field extraction helpers *)

Import Re.

Infix "+s+" := String.append (at level 60, right associativity).

(** The pattern [rf"(?:{re.escape(label)})<rest>"]. *)
Definition labelled (label : str) (rest : String.string) : re :=
  Cat (lit label) (pattern rest).
Arguments labelled label rest%_string.

(** A string is falsy when it is [None] or empty. *)
Definition str_truthy (o : option str) : bool :=
  match o with Some (_ :: _) => true | _ => false end.

Definition CURRENCY_SYMBOLS : dict str :=
  [ (u "$", u "USD"); (u "€", u "EUR"); (u "£", u "GBP"); (u "kr", u "NOK");
    (u "SEK", u "SEK"); (u "DKK", u "DKK"); (u "CHF", u "CHF"); (u "¥", u "JPY");
    (u "₹", u "INR"); (u "R$", u "BRL"); (u "A$", u "AUD"); (u "C$", u "CAD");
    (u "zł", u "PLN"); (u "Kč", u "CZK") ].

Definition DATE_PATTERNS : list String.string :=
  [ (* ISO: 2025-01-15 *)
    "(\d{4}[-/]\d{1,2}[-/]\d{1,2})";
    (* European: 15.01.2025, 15/01/2025 *)
    "(\d{1,2}[./]\d{1,2}[./]\d{2,4})";
    (* US: Jan 15, 2025 or January 15, 2025 *)
    "(\w{3,9}\s+\d{1,2},?\s+\d{4})";
    (* Compact: 15Jan2025 *)
    "(\d{1,2}\s*\w{3}\s*\d{4})" ]%string.

(** Extract invoice number with confidence. *)
Definition _extract_invoice_number (text : str) : option str * Q :=
  let patterns :=
    [ ("(?:Invoice|Inv|Faktura)[\s.#:]*(?:No\.?|Number|Nr\.?|#)?\s*[:\s]?\s*([A-Z0-9][\w\-/]{2,20})"%string, 0.95);
      ("(?:Invoice|Faktura)\s*[:\s]+\s*([A-Z0-9][\w\-/]{2,20})"%string, 0.90);
      ("(?:Inv|INV)[.\s#-]*(\d[\w\-/]{2,15})"%string, 0.85);
      ("(?:Document|Doc)[\s.#:]*(?:No\.?|Number|Nr\.?)?\s*[:\s]?\s*([A-Z0-9][\w\-/]{2,20})"%string, 0.70) ] in
  match first_hit
          (fun pc : String.string * Q =>
             match search IGNORECASE (pattern (fst pc)) text with
             | Some m =>
               let value := strip (group m 1) in
               (* Filter out obvious non-invoice values *)
               if (2 <=? length value)%nat
                  && negb (existsb (str_eqb (lower value))
                                   [u "date"; u "to"; u "from"; u "number"])
               then Some (Some value, snd pc)
               else None
             | None => None
             end)
          patterns with
  | Some r => r
  | None => (None, 0.0)
  end.

(** Extract a date value near a specific label. *)
Definition _extract_labeled_date (text : str) (labels : list str) : option str * Q :=
  match first_hit
          (fun label =>
             first_hit
               (fun date_pat =>
                  match search IGNORECASE
                               (labelled label ("\s*[:\s]\s*" +s+ date_pat)) text with
                  | Some m => Some (Some (strip (group m 1)), 0.90)
                  | None => None
                  end)
               DATE_PATTERNS)
          labels with
  | Some r => r
  | None =>
    (* Fallback: find any date near the labels *)
    match first_hit
            (fun label =>
               match find (lower text) (lower label) with
               | Some label_pos =>
                 let nearby := slice text label_pos 100 in
                 first_hit
                   (fun date_pat =>
                      match search no_flags (pattern date_pat) nearby with
                      | Some m => Some (Some (strip (group m 1)), 0.70)
                      | None => None
                      end)
                   DATE_PATTERNS
               | None => None
               end)
            labels with
    | Some r => r
    | None => (None, 0.0)
    end
  end.

(** [amounts[-1]], the last element of a non-empty list *)
Definition last_of (l : list str) : option str :=
  match rev l with
  | x :: _ => Some x
  | [] => None
  end.

(** Extract a monetary amount near a label. *)
Definition _extract_labeled_amount (text : str) (labels : list str) : option str * Q :=
  match first_hit
          (fun label =>
             (* Pattern: label followed by currency/amount *)
             match search IGNORECASE
                          (labelled label
                             ("\s*[:\s]\s*"
                              +s+ "(?:[$€£¥₹]|kr\.?|NOK|SEK|DKK|USD|EUR|GBP|CHF)?\s*"
                              +s+ "([\d]{1,3}(?:[,.\s]?\d{3})*(?:[.,]\d{1,2})?)"))
                          text with
             | Some m =>
               let raw := strip (group m 1) in
               let normalized := _normalize_amount raw in
               if str_truthy normalized then Some (normalized, 0.90) else None
             | None => None
             end)
          labels with
  | Some r => r
  | None =>
    (* Fallback: look near label position *)
    match first_hit
            (fun label =>
               match find (lower text) (lower label) with
               | Some label_pos =>
                 let nearby := slice text label_pos 80 in
                 let amounts :=
                   findall IGNORECASE
                     (pattern "(?:[$€£]|kr\.?|NOK|USD|EUR)?\s*([\d]{1,3}(?:[,.\s]?\d{3})*(?:[.,]\d{1,2}))")
                     nearby in
                 match last_of amounts with
                 | Some a =>
                   let normalized := _normalize_amount a in
                   if str_truthy normalized then Some (normalized, 0.65) else None
                 | None => None
                 end
               | None => None
               end)
            labels with
    | Some r => r
    | None => (None, 0.0)
    end
  end.

(** Extract a generic labeled value (text after a label). *)
Definition _extract_labeled_value (text : str) (labels : list str) : option str * Q :=
  match first_hit
          (fun label =>
             match search IGNORECASE
                          (labelled label "\s*[:\s]\s*(.{2,60}?)(?:\n|$)") text with
             | Some m =>
               let value := rstrip_by (N.eqb (ch ".")) (strip (group m 1)) in
               if (1 <? length value)%nat then Some (Some value, 0.80) else None
             | None => None
             end)
          labels with
  | Some r => r
  | None => (None, 0.0)
  end.

(** Extract a company/person name near a label. *)
Definition _extract_entity_name (text : str) (labels : list str) : option str * Q :=
  match first_hit
          (fun label =>
             (* Find label position and grab the next non-empty line *)
             match search IGNORECASE
                          (labelled label "\s*[:\s]\s*(.+?)(?:\n|$)") text with
             | Some m =>
               let name := strip (group m 1) in
               (* Clean up common suffixes *)
               let name := sub IGNORECASE
                               (pattern "\s*(AS|A/S|Ltd|LLC|Inc|GmbH|AB|Oy|ApS)\s*$")
                               (u " \1") name in
               if (1 <? length name)%nat && negb (isdigit name)
               then Some (Some (strip name), 0.85)
               else None
             | None => None
             end)
          labels with
  | Some r => r
  | None =>
    (* Heuristic: in invoices, first bold/large text is often the vendor *)
    let lines := split_on nl text in
    match lines with
    | l0 :: _ =>
      if (2 <? length (strip l0))%nat then
        let first_line := strip l0 in
        (* Check if it looks like a company name *)
        if negb (is_match (rmatch no_flags (pattern "^\d") first_line))
           && (length first_line <? 60)%nat
        then (Some first_line, 0.50)
        else (None, 0.0)
      else (None, 0.0)
    | [] => (None, 0.0)
    end
  end.

(** Extract an address block. *)
Definition _extract_address (text : str) (entity_type : str) : option str * Q :=
  (* Look for typical address patterns (street + number, postal code + city) *)
  let address_pattern :=
    ("((?:\d+\s+\w+\s+(?:Street|St|Ave|Road|Rd|Blvd|Way|Drive|Dr|Lane|Ln|vei|veien|gate|gaten|plass)"
     +s+ "|[\w\s]+\d+[A-Za-z]?)"
     +s+ "[\s,]*(?:\d{4,5}\s+\w+)?)")%string in
  match search IGNORECASE (pattern address_pattern) text with
  | Some m => (Some (strip (group m 1)), 0.60)
  | None => (None, 0.0)
  end.

(** Extract tax ID / org number. *)
Definition _extract_tax_id (text : str) (labels : list str) : option str * Q :=
  match first_hit
          (fun label =>
             match search IGNORECASE
                          (labelled label "\s*[:\s]?\s*(\d[\d\s\-]{5,15}\d)") text with
             | Some m => Some (Some (strip (group m 1)), 0.90)
             | None => None
             end)
          labels with
  | Some r => r
  | None => (None, 0.0)
  end.

(** Extract VAT/tax percentage rate. *)
Definition _extract_tax_rate (text : str) : option str * Q :=
  let patterns :=
    [ "(?:vat|mva|tax|gst|moms)\s*(?:rate)?\s*[:\s]?\s*(\d{1,2}(?:[.,]\d{1,2})?)\s*%";
      "(\d{1,2}(?:[.,]\d{1,2})?)\s*%\s*(?:vat|mva|tax|gst|moms)" ]%string in
  match first_hit
          (fun p =>
             match search IGNORECASE (pattern p) text with
             | Some m =>
               Some (Some (replace_char (ch ",") (u ".") (group m 1) ++ u "%"), 0.85)
             | None => None
             end)
          patterns with
  | Some r => r
  | None => (None, 0.0)
  end.

(** The loop shared by the ranked-pattern extractors:
    the first pattern that matches gives its group 1 and its confidence. *)
Definition first_ranked (patterns : list (String.string * Q)) (text : str)
  : option str * Q :=
  match first_hit
          (fun pc : String.string * Q =>
             match search IGNORECASE (pattern (fst pc)) text with
             | Some m => Some (Some (strip (group m 1)), snd pc)
             | None => None
             end)
          patterns with
  | Some r => r
  | None => (None, 0.0)
  end.

(** Extract payment terms (net days, payment method, etc.). *)
Definition _extract_payment_terms (text : str) : option str * Q :=
  first_ranked
    [ ("(?:payment\s+terms?|betalingsbetingelser?|betalingsvilkår)\s*[:\s]\s*(.{5,80}?)(?:\n|$)"%string, 0.90);
      ("(net\s+\d+\s*(?:days)?)"%string, 0.85);
      ("(?:due\s+in|betaling\s+innen)\s+(\d+\s*(?:days|dager|calendar days))"%string, 0.80);
      ("((?:30|45|60|90)\s*(?:days|dager)\s*(?:net|netto)?)"%string, 0.75) ]
    text.

(** Extract bank account / IBAN / payment reference. *)
Definition _extract_bank_info (text : str) : option str * Q :=
  first_ranked
    [ ("(?:IBAN|iban)\s*[:\s]?\s*([A-Z]{2}\d{2}[\s]?[\dA-Z\s]{10,30})"%string, 0.95);
      ("(?:Account|Konto|Kontonr)\s*[:\s]?\s*([\d\s.]{8,20})"%string, 0.80);
      ("(?:SWIFT|BIC)\s*[:\s]?\s*([A-Z]{6}[A-Z0-9]{2,5})"%string, 0.90) ]
    text.

(** [counts[code] = counts.get(code, 0) + count], when [count > 0] *)
Definition tally (counts : dict nat) (code : str) (count : nat) : dict nat :=
  if (0 <? count)%nat
  then dict_set counts code
                (match dict_get counts code with Some n => n | None => O end + count)%nat
  else counts.

(** [max(d, key=d.get)]: the first key, in insertion order, of maximal count. *)
Fixpoint argmax (d : dict nat) (best : str) (best_n : nat) : str :=
  match d with
  | [] => best
  | (k, n) :: r => if (best_n <? n)%nat then argmax r k n else argmax r best best_n
  end.

(** Detect the primary currency used in the document. *)
Definition _detect_currency (text : str) : option str * Q :=
  let currency_counts :=
    fold_left (fun counts sc =>
                 tally counts (snd sc) (count (lower text) (lower (fst sc))))
              CURRENCY_SYMBOLS [] in
  (* Also look for currency codes *)
  let currency_counts :=
    fold_left (fun counts code =>
                 tally counts (u code)
                       (length (findall IGNORECASE (pattern ("\b" +s+ code +s+ "\b")) text)))
              ["NOK"; "USD"; "EUR"; "GBP"; "SEK"; "DKK"; "CHF"]%string
              currency_counts in
  match currency_counts with
  | (k, n) :: r => (Some (argmax r k n), 0.85)
  | [] => (None, 0.0)
  end.

(** ** Line item extraction *)

(** An entry of [all_tables] of the invoice extractor. *)
Record table_info := { ti_page : nat; ti_index : nat; ti_raw : table }.

Definition role_keywords : dict (list str) :=
  [ (u "description", [u "description"; u "item"; u "product"; u "service";
                       u "beskrivelse"; u "vare"; u "artikkel"; u "text"]);
    (u "product_code", [u "code"; u "sku"; u "item no"; u "art.nr"; u "varenr";
                        u "product code"; u "item code"]);
    (u "quantity", [u "qty"; u "quantity"; u "antall"; u "mengde"; u "antal";
                    u "pcs"; u "units"]);
    (u "unit", [u "unit"; u "uom"; u "enhet"]);
    (u "unit_price", [u "unit price"; u "price"; u "rate"; u "pris";
                      u "enhetspris"; u "à pris"; u "unit cost"]);
    (u "tax", [u "tax"; u "vat"; u "mva"; u "gst"; u "moms"]);
    (u "amount", [u "amount"; u "total"; u "sum"; u "beløp"; u "line total";
                  u "extended"; u "netto"]);
    (u "discount", [u "discount"; u "rabatt"]) ].

(** The inner loop: the first column whose header contains a keyword. *)
Fixpoint first_column (keywords : list str) (headers : list str) (col_idx : nat)
  : option nat :=
  match headers with
  | [] => None
  | header :: r =>
    if existsb (fun kw => contains kw header) keywords then Some col_idx
    else first_column keywords r (S col_idx)
  end.

(** The body of the loop over the roles. *)
Definition assign_step (headers : list str) (col_map : dict nat)
           (rk : str * list str) : dict nat :=
  match first_column (snd rk) headers 0 with
  | Some col_idx => dict_set col_map (fst rk) col_idx
  | None => col_map
  end.

(** The loop over [role_keywords.items()]. *)
Definition assign_roles (headers : list str) : dict nat :=
  fold_left (assign_step headers) role_keywords [].

(** Map table headers to line-item field roles. *)
Definition _map_line_item_columns (headers : list str) : dict nat :=
  let col_map := assign_roles headers in
  (* Need at least description or amount to be a valid line item table *)
  if dict_mem (u "description") col_map || dict_mem (u "amount") col_map
  then col_map
  else [].

(** [str(c).strip() if c else ""] *)
Definition cell_or_empty (c : option str) : str :=
  match cell_text c with
  | Some s => strip s
  | None => []
  end.

Definition numeric_roles : list str :=
  [u "quantity"; u "unit_price"; u "amount"; u "tax"].

(** The body of the loop over [col_map.items()]. *)
Definition fill_role (r : row) (item : dict pyval) (rc : str * nat) : dict pyval :=
  let '(role, col_idx) := rc in
  match nth_error r col_idx with
  | Some c =>
    let cell_value := cell_or_empty c in
    if existsb (str_eqb role) numeric_roles
    then dict_set item role (of_opt (_normalize_amount cell_value))
    else dict_set item role (VStr cell_value)
  | None => item
  end.

Definition row_blank (r : row) : bool :=
  forallb (fun c => negb (str_truthy c)) r.

(** The item of one body row, if the row yields one. *)
Definition line_item (col_map : dict nat) (row_idx : nat) (r : row)
  : option (dict pyval) :=
  if row_blank r then None
  else
    let item := fold_left (fill_role r) col_map [(u "line_no", VInt row_idx)] in
    (* Only include if at least a description or amount exists *)
    if truthy (dict_get_val item (u "description"))
       || truthy (dict_get_val item (u "amount"))
    then Some item
    else None.

(** [[str(h).strip().lower() if h else "" for h in raw[0]]] *)
Definition line_item_headers (header_row : row) : list str :=
  map (fun h => match cell_text h with
                | Some s => lower (strip s)
                | None => []
                end) header_row.

(** The line items of one table. *)
Definition table_line_items (raw : table) : list (dict pyval) :=
  match raw with
  | header_row :: (_ :: _) as body =>
    let headers := line_item_headers header_row in
    (* Identify column roles *)
    let col_map := _map_line_item_columns headers in
    match col_map with
    | [] => []
    | _ :: _ =>
      flat_map (fun ir => match line_item col_map (fst ir) (snd ir) with
                          | Some item => [item]
                          | None => []
                          end)
               (enumerate 1 body)
    end
  | _ => []
  end.

(** Extract line items from tables. *)
Definition _extract_line_items (tables : list table_info) (full_text : str)
  : list (dict pyval) :=
  flat_map (fun t => table_line_items (ti_raw t)) tables.

(** ** Contract-specific helpers *)

(** Extract parties from a contract. *)
Definition _extract_contract_parties (text : str) : list str * Q :=
  (* "between X and Y" pattern *)
  let between_pattern :=
    pattern "(?:between|mellom)\s+(.+?)\s+(?:and|og)\s+(.+?)(?:\.|,|\(|\n)" in
  match search IGNORECASE between_pattern text with
  | Some m => ([strip (group m 1); strip (group m 2)], 0.90)
  | None =>
    (* "Party A: X" pattern *)
    let party_pattern :=
      pattern "(?:party\s*[AB12]|part\s*[12])\s*[:\s]\s*(.+?)(?:\n|$)" in
    match findall IGNORECASE party_pattern text with
    | (_ :: _) as matches => (map strip (firstn 2 matches), 0.85)
    | [] => ([], 0.0)
    end
  end.

Definition type_keywords : dict (list str) :=
  [ (u "Service Agreement", [u "service agreement"; u "service contract"; u "tjenesteavtale"]);
    (u "Employment Contract", [u "employment"; u "ansettelse"; u "arbeidsavtale"; u "employment agreement"]);
    (u "NDA", [u "non-disclosure"; u "confidentiality agreement"; u "nda"; u "konfidensialitetsavtale"]);
    (u "Sales Agreement", [u "sales agreement"; u "purchase agreement"; u "kjøpsavtale"]);
    (u "Lease Agreement", [u "lease"; u "rental"; u "leieavtale"; u "husleie"]);
    (u "Partnership Agreement", [u "partnership"; u "joint venture"; u "samarbeidsavtale"]);
    (u "Supply Agreement", [u "supply agreement"; u "leveranseavtale"; u "transportation"]);
    (u "Consulting Agreement", [u "consulting"; u "advisory"; u "konsulentavtale"; u "rådgivning"]) ].

(** [any(kw in text for kw in keywords)] *)
Definition any_in (keywords : list str) (text : str) : bool :=
  existsb (fun kw => contains kw text) keywords.

(** Detect the type of contract. *)
Definition _detect_contract_type (text : str) : str * Q :=
  let text_lower := lower text in
  match first_hit (fun ck : str * list str =>
                     if any_in (snd ck) text_lower then Some (fst ck) else None)
                  type_keywords with
  | Some ctype => (ctype, 0.85)
  | None => (u "General Contract", 0.50)
  end.

(** Extract a clause summary from the contract text. *)
Definition _extract_clause (text : str) (labels : list str) : option str * Q :=
  match first_hit
          (fun label =>
             (* Find section that starts with the label *)
             let p := Cat (pattern "(?:\d+\.?\s*)?")
                          (labelled label "[:\s.]*\n(.{20,300}?)(?:\n\n|\n\d+\.)") in
             match search IGNORECASE_DOTALL p text with
             | Some m =>
               let clause := strip (group m 1) in
               (* Trim to a reasonable summary *)
               let clause := if (200 <? length clause)%nat
                             then firstn 200 clause ++ u "..."
                             else clause in
               Some (Some clause, 0.75)
             | None => None
             end)
          labels with
  | Some r => r
  | None => (None, 0.0)
  end.

(** ** Financial statement helpers *)

(** Detect what kind of financial statement this is. *)
Definition _detect_statement_type (text : str) : str :=
  let text_lower := lower text in
  if any_in [u "balance sheet"; u "balanse"; u "assets and liabilities"] text_lower
  then u "Balance Sheet"
  else if any_in [u "income statement"; u "profit and loss"; u "p&l"; u "resultat"] text_lower
  then u "Income Statement"
  else if any_in [u "cash flow"; u "kontantstrøm"] text_lower
  then u "Cash Flow Statement"
  else u "Financial Statement".

(** Extract the reporting period. *)
Definition _extract_period (text : str) : option str :=
  let patterns :=
    [ "(?:period|periode|for the year|for året)\s*[:\s]?\s*(.{5,50}?)(?:\n|$)";
      "(\d{4}[-/]\d{1,2}[-/]\d{1,2})\s*[-–to]+\s*(\d{4}[-/]\d{1,2}[-/]\d{1,2})" ]%string in
  first_hit (fun p => match search IGNORECASE (pattern p) text with
                      | Some m => Some (strip (group m 0))
                      | None => None
                      end)
            patterns.

Definition re_statement_line := pattern "(.{3,50}?)\s{2,}([\d,.\s]+\d)\s*$".

(** The items found by the line parser of the text-layout fallback. *)
Definition statement_items (text : str) : list pyval :=
  flat_map
    (fun line =>
       (* Look for lines with a label and a number *)
       match rmatch no_flags re_statement_line line with
       | Some m =>
         [VDict [ (u "label", VStr (strip (group m 1)));
                  (u "value", of_opt (_normalize_amount (group m 2))) ]]
       | None => []
       end)
    (split_on nl text).

(** Fallback: parse financial data from text layout when no tables found. *)
Definition _extract_statement_from_text (text : str) : dict pyval :=
  match statement_items text with
  | [] => []
  | (_ :: _) as items =>
    [ (u "items", VList items); (u "item_count", VInt (length items)) ]
  end.

(** ** The document-type extractors *)

Fixpoint foldM {S A} (f : S -> A -> exn_or S) (l : list A) (s : S) : exn_or S :=
  match l with
  | [] => Ret s
  | x :: r => s' <- f s x ;; foldM f r s'
  end.

(** [f"Col_{i}"] *)
Definition col_name (i : nat) : str := u "Col_" ++ str_of_nat i.

(** [[str(h).strip() if h else f"Col_{i}" for i, h in enumerate(raw[0])]] *)
Definition export_headers (header_row : row) : list str :=
  map (fun ih => match cell_text (snd ih) with
                 | Some s => strip s
                 | None => col_name (fst ih)
                 end)
      (enumerate 0 header_row).

Definition export_row (headers : list str) (r : row) : dict pyval :=
  fold_left
    (fun row_dict ic =>
       let key := match nth_error headers (fst ic) with
                  | Some h => h
                  | None => col_name (fst ic)
                  end in
       dict_set row_dict key (VStr (cell_or_empty (snd ic))))
    (enumerate 0 r) [].

Definition export_rows (headers : list str) (body : list row) : list pyval :=
  map (fun r => VDict (export_row headers r)) body.

(** [if table and len(table) > 1] *)
Definition has_body (t : table) : bool := (1 <? length t)%nat.

Definition vstrs (l : list str) : pyval := VList (map VStr l).

(** The page loop of the invoice extractor. *)
Definition read_invoice_page (acc : str * list table_info) (np : nat * Page)
  : exn_or (str * list table_info) :=
  let '(all_text, all_tables) := acc in
  let '(page_num, page) := np in
  t <- extract_text page ;;
  let text := or_empty t in
  let all_text := all_text ++ text ++ [nl] in
  (* Extract tables from each page *)
  tables <- extract_tables page ;;
  Ret (all_text,
       all_tables ++
       flat_map (fun it => if has_body (snd it)
                           then [{| ti_page := page_num; ti_index := fst it;
                                    ti_raw := snd it |}]
                           else [])
                (enumerate 0 tables)).

Definition put (k : String.string) (r : option str * Q)
           (acc : dict pyval * dict Q) : dict pyval * dict Q :=
  (dict_set (fst acc) (u k) (of_opt (fst r)), dict_set (snd acc) (u k) (snd r)).
Arguments put k%_string r acc.

(** The header-level fields of an invoice and their confidences. *)
Definition invoice_fields (all_text : str) : dict pyval * dict Q :=
  let acc := ([], []) in
  (* Invoice Number *)
  let acc := put "invoice_number" (_extract_invoice_number all_text) acc in
  (* Dates *)
  let acc := put "invoice_date"
               (_extract_labeled_date all_text
                  [u "invoice date"; u "fakturadato"; u "date"; u "dato"; u "issued"; u "invoice"]) acc in
  let acc := put "due_date"
               (_extract_labeled_date all_text
                  [u "due date"; u "forfallsdato"; u "payment due"; u "due"; u "forfall"; u "betalingsfrist"]) acc in
  (* Vendor / Supplier *)
  let acc := put "vendor_name"
               (_extract_entity_name all_text
                  [u "from"; u "vendor"; u "supplier"; u "seller"; u "fra"; u "leverandør"; u "selger"]) acc in
  let acc := put "vendor_address" (_extract_address all_text (u "vendor")) acc in
  let acc := put "vendor_tax_id"
               (_extract_tax_id all_text
                  [u "org.nr"; u "org nr"; u "vat"; u "tax id"; u "ein"; u "gst"; u "mva"]) acc in
  (* Buyer / Customer *)
  let acc := put "buyer_name"
               (_extract_entity_name all_text
                  [u "to"; u "bill to"; u "buyer"; u "customer"; u "client"; u "til"; u "kjøper"; u "kunde"]) acc in
  let acc := put "buyer_address" (_extract_address all_text (u "buyer")) acc in
  let acc := put "buyer_tax_id"
               (_extract_tax_id all_text [u "customer vat"; u "buyer tax"; u "kundens org"]) acc in
  (* Currency detection *)
  let acc := put "currency" (_detect_currency all_text) acc in
  (* Amounts *)
  let acc := put "subtotal"
               (_extract_labeled_amount all_text
                  [u "subtotal"; u "sub total"; u "netto"; u "net amount"; u "sum before tax"; u "grunnlag"]) acc in
  let acc := put "tax_amount"
               (_extract_labeled_amount all_text
                  [u "tax"; u "vat"; u "mva"; u "gst"; u "sales tax"; u "merverdiavgift"; u "moms"]) acc in
  let acc := put "tax_rate" (_extract_tax_rate all_text) acc in
  let acc := put "total_amount"
               (_extract_labeled_amount all_text
                  [u "total"; u "grand total"; u "amount due"; u "totalt"; u "sum"; u "balance due";
                   u "total amount"; u "invoice total"; u "å betale"]) acc in
  let acc := put "amount_due"
               (_extract_labeled_amount all_text
                  [u "amount due"; u "balance due"; u "å betale"; u "til betaling"; u "outstanding"]) acc in
  (* Payment terms & references *)
  let acc := put "payment_terms" (_extract_payment_terms all_text) acc in
  let acc := put "purchase_order"
               (_extract_labeled_value all_text
                  [u "po number"; u "purchase order"; u "po#"; u "p.o."; u "bestillingsnr"; u "innkjøpsordre"]) acc in
  let acc := put "reference"
               (_extract_labeled_value all_text
                  [u "reference"; u "ref"; u "referanse"; u "your ref"; u "vår ref"; u "our ref"]) acc in
  (* Bank / payment info *)
  put "bank_account" (_extract_bank_info all_text) acc.

(** [parsed_tables] of the invoice extractor *)
Definition invoice_parsed_tables (all_tables : list table_info) : list pyval :=
  flat_map
    (fun t =>
       match ti_raw t with
       | header_row :: (_ :: _) as body =>
         let headers := export_headers header_row in
         let rows := export_rows headers body in
         [VDict [ (u "page", VInt (ti_page t));
                  (u "headers", vstrs headers);
                  (u "rows", VList rows);
                  (u "row_count", VInt (length rows)) ]]
       | _ => []
       end)
    all_tables.

Definition invoice_key_fields : list str :=
  [u "invoice_number"; u "invoice_date"; u "vendor_name"; u "total_amount"].


Definition round_confidences (fc : dict Q) : dict Q :=
  map (fun kv => (fst kv, round2 (snd kv))) fc.

(** Extract comprehensive invoice data including header fields and line
    items.  [pdf] is what opening [pdf_path] does, [elapsed] what the clock
    measures; the flag [use_fine_tuned] is not read by the source. *)
Definition extract_invoice_data_ml (pdf : PDF) (elapsed : Q) : ExtractionResult :=
  let body :=
    pages <- pdf ;;
    (* Gather text and tables from all pages *)
    ' (all_text, all_tables) <- foldM read_invoice_page (enumerate 1 pages) ([], []) ;;
    match strip all_text with
    | [] => Ret (_error_result (u "No text could be extracted from this PDF") elapsed)
    | _ :: _ =>
      (* --- Extract header-level fields --- *)
      let '(fields, field_confidences) := invoice_fields all_text in
      (* --- Extract LINE ITEMS from tables --- *)
      let line_items := _extract_line_items all_tables all_text in
      let fields := dict_set fields (u "line_items") (VList (map VDict line_items)) in
      (* Store tables for export *)
      let fields := dict_set fields (u "tables") (VList (invoice_parsed_tables all_tables)) in
      let fields := dict_set fields (u "pages_processed") (VInt (length pages)) in
      (* --- Calculate overall confidence --- *)
      let overall_confidence :=
        _calculate_weighted_confidence field_confidences invoice_key_fields in
      (* Warnings *)
      let warnings := _validate_invoice_fields fields in
      Ret {| success := true;
             data := fields;
             confidence := round2 overall_confidence;
             field_confidences := round_confidences field_confidences;
             error := None;
             warnings := warnings;
             requires_review := Qltb overall_confidence 0.60;
             processing_time := round2 elapsed |}
    end in
  match body with
  | Ret r => r
  | Raise msg => _error_result msg elapsed
  end.

(** The page loop of the contract extractor. *)
Definition read_text_page (all_text : str) (np : nat * Page) : exn_or str :=
  t <- extract_text (snd np) ;;
  Ret (all_text ++ or_empty t ++ [nl]).

Definition contract_fields (all_text : str) : dict pyval * dict Q :=
  (* Parties *)
  let parties := _extract_contract_parties all_text in
  let acc := ([(u "parties", vstrs (fst parties))], [(u "parties", snd parties)]) in
  (* Contract type *)
  let ctype := _detect_contract_type all_text in
  let acc := put "contract_type" (Some (fst ctype), snd ctype) acc in
  (* Dates *)
  let acc := put "effective_date"
               (_extract_labeled_date all_text
                  [u "effective date"; u "commencement"; u "start date"; u "ikrafttredelse"; u "fra dato"]) acc in
  let acc := put "expiration_date"
               (_extract_labeled_date all_text
                  [u "expiration"; u "termination"; u "end date"; u "expiry"; u "utløpsdato"; u "til dato"]) acc in
  let acc := put "signing_date"
               (_extract_labeled_date all_text
                  [u "signed"; u "executed"; u "dated"; u "signature date"; u "signert"]) acc in
  (* Key terms *)
  let acc := put "governing_law"
               (_extract_labeled_value all_text
                  [u "governing law"; u "jurisdiction"; u "applicable law"; u "lovvalg"]) acc in
  let acc := put "payment_terms" (_extract_payment_terms all_text) acc in
  let acc := put "termination_clause"
               (_extract_clause all_text [u "termination"; u "oppsigelse"]) acc in
  let acc := put "liability"
               (_extract_clause all_text [u "liability"; u "ansvar"; u "indemnification"]) acc in
  let acc := put "confidentiality"
               (_extract_clause all_text
                  [u "confidential"; u "konfidensialitet"; u "non-disclosure"; u "nda"]) acc in
  (* Amounts *)
  let acc := put "contract_value"
               (_extract_labeled_amount all_text
                  [u "total value"; u "contract value"; u "amount"; u "consideration"; u "price"; u "pris"]) acc in
  put "currency" (_detect_currency all_text) acc.

Definition contract_key_fields : list str :=
  [u "parties"; u "effective_date"; u "contract_type"].


(** Extract contract key terms, parties, dates, and clauses. *)
Definition extract_contract_data_ml (pdf : PDF) (elapsed : Q) : ExtractionResult :=
  let body :=
    pages <- pdf ;;
    all_text <- foldM read_text_page (enumerate 1 pages) [] ;;
    match strip all_text with
    | [] => Ret (_error_result (u "No text could be extracted") elapsed)
    | _ :: _ =>
      let '(fields, field_confidences) := contract_fields all_text in
      let fields := dict_set fields (u "pages_processed") (VInt (length pages)) in
      let overall_confidence :=
        _calculate_weighted_confidence field_confidences contract_key_fields in
      Ret {| success := true;
             data := fields;
             confidence := round2 overall_confidence;
             field_confidences := round_confidences field_confidences;
             error := None;
             warnings := [];
             requires_review := Qltb overall_confidence 0.60;
             processing_time := round2 elapsed |}
    end in
  match body with
  | Ret r => r
  | Raise msg => _error_result msg elapsed
  end.

(** A table flattened for export, as the statement extractor stores it. *)
Definition statement_table (page_num t_idx : nat) (t : table) : list pyval :=
  match t with
  | header_row :: (_ :: _) as body =>
    let headers := export_headers header_row in
    let rows := export_rows headers body in
    [VDict [ (u "page", VInt page_num);
             (u "table_index", VInt t_idx);
             (u "headers", vstrs headers);
             (u "rows", VList rows);
             (u "row_count", VInt (length rows));
             (u "column_count", VInt (length headers)) ]]
  | _ => []
  end.

(** The page loop of the statement extractor. *)
Definition read_statement_page (acc : str * list pyval) (np : nat * Page)
  : exn_or (str * list pyval) :=
  let '(all_text, all_tables) := acc in
  let '(page_num, page) := np in
  t <- extract_text page ;;
  let all_text := all_text ++ or_empty t ++ [nl] in
  tables <- extract_tables page ;;
  Ret (all_text,
       all_tables ++
       flat_map (fun it => statement_table page_num (fst it) (snd it))
                (enumerate 0 tables)).

(** [t["row_count"]] *)
Definition row_count_of (t : pyval) : nat :=
  match t with
  | VDict d => match dict_get d (u "row_count") with
               | Some (VInt n) => n
               | _ => O
               end
  | _ => O
  end.

(** [sum(t["row_count"] for t in tables)] *)
Definition total_rows (tables : list pyval) : nat :=
  fold_left (fun n t => (n + row_count_of t)%nat) tables O.

(** The first summary total found, under the key [summary_<label>]. *)
Definition summary_total (all_text : str) : option (str * pyval) :=
  first_hit
    (fun label =>
       let '(amount, conf) := _extract_labeled_amount all_text [label] in
       if str_truthy amount
       then Some (u "summary_" ++ replace_char (ch " ") (u "_") label, of_opt amount)
       else None)
    [u "total"; u "net income"; u "balance"; u "sum"; u "totalt"; u "resultat"].

(** Extract financial statement tables, totals, and structure. *)
Definition extract_financial_statement_ml (pdf : PDF) (elapsed : Q)
  : ExtractionResult :=
  let body :=
    pages <- pdf ;;
    ' (all_text, all_tables) <- foldM read_statement_page (enumerate 1 pages) ([], []) ;;
    match all_tables with
    | [] =>
      (* Try to parse text as structured data *)
      match _extract_statement_from_text all_text with
      | (_ :: _) as fields =>
        Ret {| success := true;
               data := fields;
               confidence := 0.65;
               field_confidences := [];
               error := None;
               warnings := [u "No tables detected - extracted from text layout"];
               requires_review := true;
               processing_time := round2 elapsed |}
      | [] => Ret (_error_result (u "No tables found in financial statement") elapsed)
      end
    | _ :: _ =>
      let fields :=
        [ (u "statement_type", VStr (_detect_statement_type all_text));
          (u "period", of_opt (_extract_period all_text));
          (u "currency", of_opt (fst (_detect_currency all_text)));
          (u "tables", VList all_tables);
          (u "total_tables", VInt (length all_tables));
          (u "total_rows", VInt (total_rows all_tables));
          (u "pages_processed", VInt (length pages)) ] in
      (* Try to find summary totals *)
      let fields := match summary_total all_text with
                    | Some (k, amount) => dict_set fields k amount
                    | None => fields
                    end in
      Ret {| success := true;
             data := fields;
             confidence := 0.82;
             field_confidences := [];
             error := None;
             warnings := [];
             requires_review := false;
             processing_time := round2 elapsed |}
    end in
  match body with
  | Ret r => r
  | Raise msg => _error_result msg elapsed
  end.

(** A table flattened for export, as the generic extractor stores it. *)
Definition generic_table (page_num : nat) (t : table) : list pyval :=
  match t with
  | header_row :: (_ :: _) as body =>
    let headers := export_headers header_row in
    let rows := export_rows headers body in
    [VDict [ (u "page", VInt page_num);
             (u "headers", vstrs headers);
             (u "rows", VList rows);
             (u "row_count", VInt (length rows)) ]]
  | _ => []
  end.

(** The page loop of the generic extractor. *)
Definition read_generic_page (acc : str * list pyval * list pyval) (np : nat * Page)
  : exn_or (str * list pyval * list pyval) :=
  let '(all_text, text_blocks, tables) := acc in
  let '(page_num, page) := np in
  t <- extract_text page ;;
  let text := or_empty t in
  let all_text := all_text ++ text ++ [nl] in
  let text_blocks :=
    match strip text with
    | [] => text_blocks
    | _ :: _ => text_blocks ++ [VDict [(u "page", VInt page_num); (u "text", VStr text)]]
    end in
  page_tables <- extract_tables page ;;
  Ret (all_text, text_blocks,
       tables ++ flat_map (fun it => generic_table page_num (snd it))
                          (enumerate 0 page_tables)).

(** [list(set(l))]: the distinct elements (Python leaves their order open). *)
Fixpoint distinct (l : list str) : list str :=
  match l with
  | [] => []
  | x :: r => x :: filter (fun y => negb (str_eqb x y)) (distinct r)
  end.

(** [if l: fields[k] = list(set(f(l)))] *)
Definition put_found (k : String.string) (l kept : list str) (fields : dict pyval)
  : dict pyval :=
  match l with
  | [] => fields
  | _ :: _ => dict_set fields (u k) (vstrs (distinct kept))
  end.
Arguments put_found k%_string l kept fields.

Definition re_generic_amount :=
  pattern "(?:[$€£]|kr\.?|NOK|USD|EUR)\s*[\d,.\s]+\d".
Definition re_email := pattern "[\w.+-]+@[\w.-]+\.\w{2,}".
Definition re_phone :=
  pattern "(?:\+\d{1,3}[\s-]?)?\(?\d{2,4}\)?[\s.-]?\d{3,4}[\s.-]?\d{3,4}".
(** [r"https?://[^\s<>\"']+|www\.[^\s<>\"']+"] *)
Definition re_url : re :=
  match compile (u "https?://[^\s<>" ++ [92; 34]%N ++ u "']+|www\.[^\s<>"
                   ++ [92; 34]%N ++ u "']+") with
  | Some r => r
  | None => CSet false []
  end.

(** The confidence ladder of the generic extractor. *)
Definition generic_confidence (all_text : str) (tables : list pyval) : Q :=
  let confidence := 0.75 in
  let confidence := match tables with [] => confidence | _ :: _ => 0.80 end in
  if (length all_text <? 100)%nat then 0.50 else confidence.

(** Generic extraction for any PDF: all text, tables, dates, amounts, entities. *)
Definition extract_generic_data_ml (pdf : PDF) (elapsed : Q) : ExtractionResult :=
  let body :=
    pages <- pdf ;;
    ' (all_text, text_blocks, tables) <-
        foldM read_generic_page (enumerate 1 pages) ([], [], []) ;;
    (* Extract whatever we can find *)
    let fields :=
      [ (u "pages_processed", VInt (length pages));
        (u "total_characters", VInt (length all_text));
        (u "text_blocks", VList text_blocks);
        (u "tables", VList tables);
        (u "total_tables", VInt (length tables));
        (u "total_rows", VInt (total_rows tables)) ] in
    (* Auto-detect dates *)
    let all_dates :=
      flat_map (fun p => findall no_flags (pattern p) all_text) DATE_PATTERNS in
    let fields := put_found "dates_found" all_dates (firstn 20 all_dates) fields in
    (* Auto-detect amounts *)
    let amounts := findall IGNORECASE re_generic_amount all_text in
    let fields := put_found "amounts_found" amounts (map strip (firstn 20 amounts)) fields in
    (* Detect currency *)
    let fields := dict_set fields (u "currency") (of_opt (fst (_detect_currency all_text))) in
    (* Auto-detect emails *)
    let emails := findall no_flags re_email all_text in
    let fields := put_found "emails_found" emails emails fields in
    (* Auto-detect phone numbers *)
    let phones := findall no_flags re_phone all_text in
    let fields := put_found "phones_found" phones (map strip (firstn 10 phones)) fields in
    (* Auto-detect URLs *)
    let urls := findall no_flags re_url all_text in
    let fields := put_found "urls_found" urls urls fields in
    Ret {| success := true;
           data := fields;
           confidence := generic_confidence all_text tables;
           field_confidences := [];
           error := None;
           warnings := [u "Generic extraction — specific document type may yield better results"];
           requires_review := false;
           processing_time := round2 elapsed |} in
  match body with
  | Ret r => r
  | Raise msg => _error_result msg elapsed
  end.

(** ** The document-type classifier (era_dashboard) *)

Definition invoice_words : list str :=
  [u "invoice"; u "invoice no"; u "inv."; u "bill"; u "faktura"; u "fakturanr";
   u "fakturanummer"].
Definition contract_words : list str :=
  [u "contract"; u "agreement"; u "between"; u "kontrakt"; u "avtale"].
Definition statement_words : list str :=
  [u "balance sheet"; u "income statement"; u "cash flow"; u "p&l"; u "balanse";
   u "resultatregnskap"].

(** The keyword heuristics on the lower-cased text of the first page;
    [None] when control falls through to the final [return]. *)
Definition classify_text (first_page_text : str) : option str :=
  if any_in invoice_words first_page_text then Some (u "invoice")
  else if any_in contract_words first_page_text then Some (u "contract")
  else if any_in statement_words first_page_text then Some (u "statement")
  else None.

(** Detect document type from content. *)
Definition _detect_document_type (pdf : PDF) : str :=
  let body :=
    pages <- pdf ;;
    (* Get first page text *)
    first_page_text <-
      match pages with
      | p :: _ => t <- extract_text p ;; Ret (lower (or_empty t))
      | [] => Ret []
      end ;;
    (* Simple heuristics *)
    Ret (classify_text first_page_text) in
  match body with
  | Ret (Some doc_type) => doc_type
  | Ret None => u "generic"
  | Raise _ => u "generic"
  end.

(** The dispatch of the background job on the detected type. *)
Definition extract_by_type (pdf : PDF) (elapsed : Q) : ExtractionResult :=
  let doc_type := _detect_document_type pdf in
  if str_eqb doc_type (u "invoice") then extract_invoice_data_ml pdf elapsed
  else if str_eqb doc_type (u "contract") then extract_contract_data_ml pdf elapsed
  else if str_eqb doc_type (u "statement") then extract_financial_statement_ml pdf elapsed
  else extract_generic_data_ml pdf elapsed.

(** * Specification-level definitions *)

(** The weighted mean of the specification: key fields weigh 2.0, all
    others 1.0. *)
Definition weight (key_fields : list str) (field : str) : Q :=
  if existsb (str_eqb field) key_fields then 2.0 else 1.0.

Definition Qsum (l : list Q) : Q := fold_right Qplus 0 l.

Definition weighted_mean (field_confidences : dict Q) (key_fields : list str) : Q :=
  Qsum (map (fun fc => snd fc * weight key_fields (fst fc)) field_confidences)
  / Qsum (map (fun fc => weight key_fields (fst fc)) field_confidences).

(** The body of the loop of the aggregator. *)
Definition add_field (key_fields : list str) (acc : Q * Q) (fc : str * Q) : Q * Q :=
  let '(weighted_sum, total_weight) := acc in
  let '(field, conf) := fc in
  let weight := if existsb (str_eqb field) key_fields then 2.0 else 1.0 in
  (weighted_sum + conf * weight, total_weight + weight).

(** A canonical numeric string: digits with at most one ['.'] as the decimal
    mark, and at least one digit. *)
Definition digit_or_dot (c : char) : bool := is_digit c || (c =? ch ".")%N.

Definition is_canonical (s : str) : bool :=
  forallb digit_or_dot s
  && (count_occ N.eq_dec s (ch ".") <=? 1)%nat
  && existsb is_digit s.

(** A canonical amount: one or more digits, a dot, exactly two digits. *)
Definition canonical_amount (x : str) : Prop :=
  exists ds a b,
    ds <> [] /\ forallb is_digit ds = true /\ is_digit a = true /\ is_digit b = true
    /\ x = ds ++ [ch "."; a; b].

(** Column [i] is the leftmost header that contains one of [keywords]. *)
Definition leftmost (keywords : list str) (headers : list str) (i : nat) : Prop :=
  (exists h, nth_error headers i = Some h /\ any_in keywords h = true)
  /\ forall j h, (j < i)%nat -> nth_error headers j = Some h ->
                 any_in keywords h = false.

(** The keywords of the unit and of the unit-price role. *)
Definition unit_keywords : list str := [u "unit"; u "uom"; u "enhet"].
Definition unit_price_keywords : list str :=
  [u "unit price"; u "price"; u "rate"; u "pris"; u "enhetspris"; u "à pris";
   u "unit cost"].

(** What a role receives from a cell. *)
Definition role_value (role : str) (c : option str) : pyval :=
  if existsb (str_eqb role) numeric_roles
  then of_opt (_normalize_amount (cell_or_empty c))
  else VStr (cell_or_empty c).

(** An invoice table with a unit column and a unit-price column. *)
Definition table_with_unit_column : table :=
  [ [Some (u "Description"); Some (u "Unit"); Some (u "Unit Price"); Some (u "Amount")];
    [Some (u "Consulting"); Some (u "hours"); Some (u "1000.00"); Some (u "10000.00")] ].

(** Text that is empty or whitespace-only. *)
Definition blank (s : str) : Prop := strip s = [].

(** Reading the pages raises [msg]: the first operation that fails, in the
    order of the page loop, fails with [msg].  [with_tables] tells whether
    the loop also reads the tables of each page. *)
Inductive pages_raise (with_tables : bool) : list Page -> str -> Prop :=
| raise_text p ps msg :
    extract_text p = Raise msg -> pages_raise with_tables (p :: ps) msg
| raise_tables p ps t msg :
    with_tables = true -> extract_text p = Ret t ->
    extract_tables p = Raise msg -> pages_raise with_tables (p :: ps) msg
| raise_later p ps t msg :
    extract_text p = Ret t ->
    (with_tables = true -> exists tb, extract_tables p = Ret tb) ->
    pages_raise with_tables ps msg -> pages_raise with_tables (p :: ps) msg.

Definition reading_raises (with_tables : bool) (pdf : PDF) (msg : str) : Prop :=
  pdf = Raise msg \/ exists pages, pdf = Ret pages /\ pages_raise with_tables pages msg.

(** A page that is read without error. *)
Definition readable (p : Page) : Prop :=
  (exists t, extract_text p = Ret t) /\ (exists tb, extract_tables p = Ret tb).

(** The text of a page that is read without error. *)
Definition page_text (p : Page) : str :=
  match extract_text p with
  | Ret t => or_empty t
  | Raise _ => []
  end.

Definition page_tables (p : Page) : list table :=
  match extract_tables p with
  | Ret tb => tb
  | Raise _ => []
  end.

(** The text gathered from all pages: every page text followed by a newline. *)
Definition gathered_text (pages : list Page) : str :=
  flat_map (fun p => page_text p ++ [nl]) pages.

(** What every match of a pattern is bound to consume: [needs fl P r] holds
    when each match of [r] contains a character that satisfies [P]. *)
Fixpoint needs (fl : flags) (P : char -> Prop) (r : re) : Prop :=
  match r with
  | Chr p => forall c, chr_eq fl p c = true -> P c
  | CSet neg items => forall c, xorb neg (set_has fl items c) = true -> P c
  | Cat a b => needs fl P a \/ needs fl P b
  | Alt a b => needs fl P a /\ needs fl P b
  | Rep lo _ _ a => (0 < lo)%nat /\ needs fl P a
  | Grp _ a => needs fl P a
  | _ => False
  end.

(** The two outcomes of a primitive: nothing at confidence 0.0, or a value
    at a positive confidence. *)
Definition found_or_not (r : option str * Q) : Prop :=
  r = (None, 0.0) \/ exists v c, r = (Some v, c) /\ 0 < c.

(** Value and confidence are coupled: no value exactly at confidence 0.0. *)
Definition coupled (r : option str * Q) : Prop :=
  fst r = None <-> snd r == 0.0.

(** A decidable sufficient condition for [needs] under no flags: [okc]
    accepts the literal characters and [ok] the set members whose characters
    all satisfy the property. *)
Fixpoint needs_in (okc : char -> bool) (ok : cset_item -> bool) (r : re) : bool :=
  match r with
  | Chr p => okc p
  | CSet false items => forallb ok items
  | Cat a b => needs_in okc ok a || needs_in okc ok b
  | Alt a b => needs_in okc ok a && needs_in okc ok b
  | Rep lo _ _ a => (0 <? lo)%nat && needs_in okc ok a
  | Grp _ a => needs_in okc ok a
  | _ => false
  end.

Definition only_digit (it : cset_item) : bool :=
  match it with CDigit => true | _ => false end.
Definition only_space (it : cset_item) : bool :=
  match it with CSpace => true | _ => false end.
Definition only_char (x : char) (it : cset_item) : bool :=
  match it with CChar y => (y =? x)%N | _ => false end.

(** No table of the document has a body row. *)
Definition no_body_tables (pages : list Page) : Prop :=
  Forall (fun p => Forall (fun t => has_body t = false) (page_tables p)) pages.




(** ** Example documents *)

(** An invoice that mentions a contract: the invoice group wins. *)
Definition invoice_mentioning_contract : Page :=
  {| extract_text := Ret (Some (u "FAKTURA for contract 42"));
     extract_tables := Ret [] |}.

(** A page that has no text layer. *)
Definition scanned_page : Page :=
  {| extract_text := Ret None; extract_tables := Ret [] |}.

(** A result is well formed: a success carries no error, and a failure is
    the standard error result. *)
Definition well_formed (elapsed : Q) (r : ExtractionResult) : Prop :=
  (success r = true /\ error r = None)
  \/ (exists msg, r = _error_result msg elapsed).

(** A page whose tables cannot be read. *)
Definition broken_page : Page :=
  {| extract_text := Ret (Some (u "Invoice 42"));
     extract_tables := Raise (u "boom") |}.

(** The invoice of scenario 1, with the table of scenario 2. *)
Definition scenario_invoice : PDF :=
  Ret [ {| extract_text :=
             Ret (Some (u "Invoice Number: INV-2024-001" ++ [nl]
                          ++ u "Total: 12 500,00 kr"));
           extract_tables :=
             Ret [ [ [Some (u "Description"); Some (u "Qty");
                      Some (u "Unit Price"); Some (u "Amount")];
                     [Some (u "Consulting"); Some (u "10");
                      Some (u "1000.00"); Some (u "10000.00")] ] ] |} ].

(** The contract of scenario 4. *)
Definition contract_between : PDF :=
  Ret [ {| extract_text :=
             Ret (Some (u "This Agreement is entered into between Acme AS and Beta AS."));
           extract_tables := Ret [] |} ].

(** ** Further specification-level definitions *)

(** A string without leading or trailing whitespace. *)
Definition stripped (s : str) : Prop :=
  match s with c :: _ => is_space c = false | [] => True end
  /\ match rev s with c :: _ => is_space c = false | [] => True end.

(** A confidence score lies between 0 and 1. *)
Definition in_unit (c : Q) : Prop := 0 <= c /\ c <= 1.

(** The confidence of a (value, confidence) pair is such a score. *)
Definition unit_conf {A} (r : A * Q) : Prop := in_unit (snd r).

(** The keys of a dictionary after [d[k] = v]. *)
Definition add_key (keys : list str) (k : str) : list str :=
  if existsb (str_eqb k) keys then keys else keys ++ [k].

(** The header-level fields of an invoice result, in the order in which the
    extractor stores them. *)
Definition invoice_field_names : list str :=
  [ u "invoice_number"; u "invoice_date"; u "due_date"; u "vendor_name";
    u "vendor_address"; u "vendor_tax_id"; u "buyer_name"; u "buyer_address";
    u "buyer_tax_id"; u "currency"; u "subtotal"; u "tax_amount"; u "tax_rate";
    u "total_amount"; u "amount_due"; u "payment_terms"; u "purchase_order";
    u "reference"; u "bank_account" ].

(** The fields of a contract result, in the order in which the extractor
    stores them. *)
Definition contract_field_names : list str :=
  [ u "parties"; u "contract_type"; u "effective_date"; u "expiration_date";
    u "signing_date"; u "governing_law"; u "payment_terms";
    u "termination_clause"; u "liability"; u "confidentiality";
    u "contract_value"; u "currency" ].

(** ** Proof automation *)

(** Boolean comparisons of code points, as propositions for [lia]. *)
Ltac nbool :=
  repeat match goal with
         | H : _ || _ = true |- _ => apply orb_true_iff in H; destruct H as [H|H]
         | H : _ && _ = true |- _ => apply andb_true_iff in H; destruct H as [? H]
         | H : (_ <=? _)%N = true |- _ => apply N.leb_le in H
         | H : (_ =? _)%N = true |- _ => apply N.eqb_eq in H
         | H : negb _ = true |- _ => apply negb_true_iff in H
         | H : (_ =? _)%N = false |- _ => apply N.eqb_neq in H
         end.

(** A hit of a search loop: the branches that return. *)
Ltac take_hit H :=
  repeat match type of H with
         | match ?e with _ => _ end = Some _ => destruct e eqn:?; try discriminate H
         | (if ?e then _ else _) = Some _ => destruct e eqn:?; try discriminate H
         end;
  inversion H; subst; clear H.

Ltac good_hit := do 2 eexists; split; [reflexivity|reflexivity].

(** * Facts about the matcher *)

Section Consumption.

Variable fl : flags.
Variable P : char -> Prop.

(** A matching step hands a later position of the same text to its
    continuation; under [N], what it consumed contains a [P]-character. *)
Definition step_sound (step : mstate -> kont -> option mstate) (N : Prop) : Prop :=
  forall st k res,
    step st k = Some res ->
    exists st' w, k st' = Some res /\ after st = w ++ after st' /\ (N -> Exists P w).

Lemma rep_min_sound step N n :
  step_sound step N -> step_sound (rep_min step n) ((0 < n)%nat /\ N).
Proof.
  intros Hs. induction n as [|n IH]; intros st k res H; simpl in H.
  - exists st, []. split; [exact H|]. split; [reflexivity|]. intros [Hn _]. lia.
  - apply Hs in H. destruct H as (st1 & w1 & H1 & E1 & N1).
    apply IH in H1. destruct H1 as (st2 & w2 & H2 & E2 & _).
    exists st2, (w1 ++ w2). split; [exact H2|]. split.
    + rewrite E1, E2. now rewrite app_assoc.
    + intros [_ HN]. apply Exists_app. left. auto.
Qed.

Lemma rep_opt_sound step N greedy fuel :
  step_sound step N -> step_sound (rep_opt step greedy fuel) False.
Proof.
  intros Hs. induction fuel as [|f IH]; intros st k res H; simpl in H.
  - exists st, []. split; [exact H|]. split; [reflexivity|tauto].
  - assert (Hmore : forall res',
               step st (fun st' => if (length (after st') <? length (after st))%nat
                                   then rep_opt step greedy f st' k else None) = Some res' ->
               exists st' w, k st' = Some res' /\ after st = w ++ after st' /\ (False -> Exists P w)).
    { intros res' H'. apply Hs in H'. destruct H' as (st1 & w1 & H1 & E1 & _).
      destruct (length (after st1) <? length (after st))%nat; [|discriminate].
      apply IH in H1. destruct H1 as (st2 & w2 & H2 & E2 & _).
      exists st2, (w1 ++ w2). split; [exact H2|]. split; [|tauto].
      rewrite E1, E2. now rewrite app_assoc. }
    assert (Hstop : forall res', k st = Some res' ->
               exists st' w, k st' = Some res' /\ after st = w ++ after st' /\ (False -> Exists P w)).
    { intros res' H'. exists st, []. split; [exact H'|]. split; [reflexivity|tauto]. }
    destruct greedy.
    + destruct (step st _) eqn:E.
      * inversion H; subst. now apply Hmore.
      * now apply Hstop.
    + destruct (k st) eqn:E.
      * inversion H; subst. now apply Hstop.
      * now apply Hmore.
Qed.

Lemma advance_after st c r : after st = c :: r -> after (advance st) = r.
Proof. unfold advance. intros ->. reflexivity. Qed.

(** The step that consumes nothing. *)
Lemma stay_sound (N : Prop) st (k : kont) res :
  k st = Some res -> (N -> False) ->
  exists st' w, k st' = Some res /\ after st = w ++ after st' /\ (N -> Exists P w).
Proof.
  intros H HN. exists st, []. split; [exact H|]. split; [reflexivity|].
  intros n. destruct (HN n).
Qed.

(** The step that consumes one character. *)
Lemma eat_sound (N : Prop) st (k : kont) res x rest :
  after st = x :: rest -> k (advance st) = Some res -> (N -> P x) ->
  exists st' w, k st' = Some res /\ x :: rest = w ++ after st' /\ (N -> Exists P w).
Proof.
  intros E H HN. exists (advance st), [x]. split; [exact H|]. split.
  - now rewrite (advance_after st x rest E).
  - intros n. constructor. auto.
Qed.

Lemma run_sound r : step_sound (run fl r) (needs fl P r).
Proof.
  induction r; intros st k res H; simpl in H.
  - (* Eps *) apply stay_sound; simpl; auto.
  - (* Chr *)
    destruct (after st) as [|x rest] eqn:E; [discriminate|].
    destruct (chr_eq fl c x) eqn:Ec; [|discriminate].
    eapply eat_sound; eauto.
  - (* Any *)
    destruct (after st) as [|x rest] eqn:E; [discriminate|].
    destruct (dotall fl || negb (x =? nl)%N); [|discriminate].
    eapply eat_sound; eauto; simpl; tauto.
  - (* CSet *)
    destruct (after st) as [|x rest] eqn:E; [discriminate|].
    destruct (xorb neg (set_has fl items x)) eqn:Ec; [|discriminate].
    eapply eat_sound; eauto.
  - (* Bol *)
    destruct (before st); [|discriminate].
    apply stay_sound; simpl; auto.
  - (* Eol *)
    apply stay_sound; simpl; auto.
    destruct (after st) as [|x [|y rest]]; try discriminate; auto.
    destruct (x =? nl)%N; [auto|discriminate].
  - (* WordB *)
    destruct (at_word_boundary st); [|discriminate].
    apply stay_sound; simpl; auto.
  - (* Cat *)
    apply IHr1 in H. destruct H as (st1 & w1 & H1 & E1 & N1).
    apply IHr2 in H1. destruct H1 as (st2 & w2 & H2 & E2 & N2).
    exists st2, (w1 ++ w2). split; [exact H2|]. split.
    + rewrite E1, E2. now rewrite app_assoc.
    + simpl. intros [HN|HN]; apply Exists_app; auto.
  - (* Alt *)
    destruct (run fl r1 st k) eqn:E.
    + inversion H; subst. apply IHr1 in E. destruct E as (st1 & w1 & H1 & E1 & N1).
      exists st1, w1. split; [exact H1|]. split; [exact E1|]. simpl. tauto.
    + apply IHr2 in H. destruct H as (st1 & w1 & H1 & E1 & N1).
      exists st1, w1. split; [exact H1|]. split; [exact E1|]. simpl. tauto.
  - (* Rep *)
    apply (rep_min_sound _ _ lo IHr) in H. destruct H as (st1 & w1 & H1 & E1 & N1).
    apply (rep_opt_sound _ _ greedy _ IHr) in H1. destruct H1 as (st2 & w2 & H2 & E2 & _).
    exists st2, (w1 ++ w2). split; [exact H2|]. split.
    + rewrite E1, E2. now rewrite app_assoc.
    + simpl. intros HN. apply Exists_app. left. auto.
  - (* Grp *)
    apply IHr in H. destruct H as (st1 & w1 & H1 & E1 & N1).
    exists (set_cap i (consumed st st1) st1), w1.
    split; [exact H1|]. split; [exact E1|exact N1].
  - (* Ahead *)
    destruct (run fl r st _); [|discriminate].
    apply stay_sound; simpl; auto.
  - (* Behind *)
    destruct (width r); [|discriminate].
    destruct (rewind n st); [|discriminate].
    destruct (run fl r m _); [|discriminate].
    apply stay_sound; simpl; auto.
Qed.

(** A pattern that needs a [P]-character matches nowhere in a text that has
    none. *)
Lemma match_at_none r bef aft :
  needs fl P r -> Forall (fun c => ~ P c) aft -> match_at fl r bef aft = None.
Proof.
  intros HN HF. unfold match_at.
  destruct (run fl r _ _) eqn:E; [|reflexivity].
  apply run_sound in E. destruct E as (st' & w & _ & E & HP). simpl in E.
  specialize (HP HN). exfalso.
  apply Exists_exists in HP. destruct HP as (c & Hin & Hc).
  rewrite Forall_forall in HF. apply (HF c); auto.
  rewrite E. apply in_or_app. now left.
Qed.

Lemma search_at_none r bef aft :
  needs fl P r -> Forall (fun c => ~ P c) aft -> search_at fl r bef aft = None.
Proof.
  intros HN. revert bef. induction aft as [|c aft IH]; intros bef HF; simpl.
  - now rewrite match_at_none.
  - rewrite match_at_none by auto. apply IH. now inversion HF.
Qed.

Lemma sub_at_id r tpl bef aft :
  needs fl P r -> Forall (fun c => ~ P c) aft -> sub_at fl r tpl bef aft 0 = aft.
Proof.
  intros HN. revert bef. induction aft as [|c aft IH]; intros bef HF; simpl.
  - now rewrite match_at_none.
  - rewrite match_at_none by auto. f_equal. apply IH. now inversion HF.
Qed.

End Consumption.

(** * The confidence aggregator *)

Section Aggregator.

Variable key_fields : list str.

Lemma weight_pos field : 0 < weight key_fields field.
Proof. unfold weight. destruct (existsb _ _); reflexivity. Qed.

Lemma weights_nonneg fcs :
  0 <= Qsum (map (fun fc : str * Q => weight key_fields (fst fc)) fcs).
Proof.
  induction fcs as [|fc fcs IH]; simpl.
  - apply Qle_refl.
  - pose proof (weight_pos (fst fc)).
    apply Qle_trans with (0 + 0); [apply Qle_refl|].
    apply Qplus_le_compat; auto. now apply Qlt_le_weak.
Qed.

Lemma weights_pos fc fcs :
  0 < Qsum (map (fun fc : str * Q => weight key_fields (fst fc)) (fc :: fcs)).
Proof.
  simpl. pose proof (weight_pos (fst fc)). pose proof (weights_nonneg fcs).
  apply Qlt_le_trans with (weight key_fields (fst fc) + 0).
  - now rewrite Qplus_0_r.
  - apply Qplus_le_compat; auto. apply Qle_refl.
Qed.

(** The loop accumulates the two sums of the weighted mean. *)
Lemma loop_sums fcs ws tw :
  fst (fold_left (add_field key_fields) fcs (ws, tw))
  == ws + Qsum (map (fun fc => snd fc * weight key_fields (fst fc)) fcs)
  /\ snd (fold_left (add_field key_fields) fcs (ws, tw))
     == tw + Qsum (map (fun fc => weight key_fields (fst fc)) fcs).
Proof.
  revert ws tw. induction fcs as [|[field conf] fcs IH]; intros ws tw; simpl.
  - split; ring.
  - destruct (IH (ws + conf * (if existsb (str_eqb field) key_fields then 2.0 else 1.0))
                 (tw + (if existsb (str_eqb field) key_fields then 2.0 else 1.0)))
      as [H1 H2].
    split; [rewrite H1 | rewrite H2]; unfold weight; ring.
Qed.

Lemma calculate_unfold fc fcs :
  _calculate_weighted_confidence (fc :: fcs) key_fields
  = (let r := fold_left (add_field key_fields) (fc :: fcs) (0, 0) in
     if Qltb 0 (snd r) then fst r / snd r else 0.0).
Proof.
  unfold _calculate_weighted_confidence.
  change (fold_left _ (fc :: fcs) (0, 0)) with (fold_left (add_field key_fields) (fc :: fcs) (0, 0)).
  destruct (fold_left (add_field key_fields) (fc :: fcs) (0, 0)). reflexivity.
Qed.

Lemma Qltb_true x y : x < y -> Qltb x y = true.
Proof.
  intros H. unfold Qltb. destruct (Qle_bool y x) eqn:E; [|reflexivity].
  apply Qle_bool_iff in E. exfalso. apply (Qlt_not_le _ _ H E).
Qed.

Lemma calculate_is_mean fc fcs :
  _calculate_weighted_confidence (fc :: fcs) key_fields
  == weighted_mean (fc :: fcs) key_fields.
Proof.
  rewrite calculate_unfold. cbv zeta.
  destruct (loop_sums (fc :: fcs) 0 0) as [H1 H2].
  rewrite Qplus_0_l in H1, H2.
  pose proof (weights_pos fc fcs) as Hpos.
  rewrite Qltb_true by now rewrite H2.
  unfold weighted_mean. now rewrite H1, H2.
Qed.

End Aggregator.



(** * Facts about strings and dictionaries *)

Lemma str_eqb_eq a b : str_eqb a b = true <-> a = b.
Proof. unfold str_eqb. destruct (list_eq_dec N.eq_dec a b); split; congruence. Qed.

Lemma str_eqb_refl a : str_eqb a a = true.
Proof. now apply str_eqb_eq. Qed.

Lemma str_eqb_neq a b : a <> b -> str_eqb a b = false.
Proof. unfold str_eqb. destruct (list_eq_dec N.eq_dec a b); congruence. Qed.

Section DictFacts.

Context {V : Type}.
Implicit Types (d : dict V) (k : str) (v : V).

Lemma dict_get_set_same d k v : dict_get (dict_set d k v) k = Some v.
Proof.
  induction d as [|[k' v'] d IH]; simpl.
  - now rewrite str_eqb_refl.
  - destruct (str_eqb k k') eqn:E; simpl; rewrite E; auto.
Qed.

Lemma dict_get_set_other d k k' v :
  k <> k' -> dict_get (dict_set d k v) k' = dict_get d k'.
Proof.
  intros Hne. induction d as [|[k0 v0] d IH]; simpl.
  - rewrite str_eqb_neq; auto.
  - destruct (str_eqb k k0) eqn:E; simpl.
    + apply str_eqb_eq in E. subst k0. rewrite str_eqb_neq; auto.
    + destruct (str_eqb k' k0); auto.
Qed.

Lemma dict_get_none d k : ~ In k (map fst d) -> dict_get d k = None.
Proof.
  induction d as [|[k' v'] d IH]; simpl; intros H; [reflexivity|].
  rewrite str_eqb_neq by (intros ->; apply H; now left).
  apply IH. intros Hin. apply H. now right.
Qed.

Lemma dict_get_in d k v : dict_get d k = Some v -> In k (map fst d).
Proof.
  induction d as [|[k' v'] d IH]; simpl; [discriminate|].
  destruct (str_eqb k k') eqn:E.
  - apply str_eqb_eq in E. auto.
  - auto.
Qed.

Lemma dict_set_keys d k v :
  map fst (dict_set d k v)
  = if dict_mem k d then map fst d else map fst d ++ [k].
Proof.
  unfold dict_mem. induction d as [|[k' v'] d IH]; simpl; [reflexivity|].
  destruct (str_eqb k k') eqn:E; simpl; [reflexivity|].
  rewrite IH. destruct (dict_get d k); reflexivity.
Qed.

Lemma dict_get_none_inv d k : dict_get d k = None -> ~ In k (map fst d).
Proof.
  induction d as [|[k' v'] d IH]; simpl; [tauto|].
  destruct (str_eqb k k') eqn:E; [discriminate|].
  intros Hg [->|Hin]; [now rewrite str_eqb_refl in E|now apply IH].
Qed.

Lemma nodup_snoc (l : list str) k : NoDup l -> ~ In k l -> NoDup (l ++ [k]).
Proof.
  induction l as [|x l IH]; simpl; intros Hn Hk.
  - repeat constructor. simpl. tauto.
  - inversion Hn; subst. constructor.
    + rewrite in_app_iff. simpl. intros [H|[H|[]]]; [tauto|subst; tauto].
    + apply IH; tauto.
Qed.

Lemma dict_set_nodup d k v : NoDup (map fst d) -> NoDup (map fst (dict_set d k v)).
Proof.
  intros H. rewrite dict_set_keys. unfold dict_mem.
  destruct (dict_get d k) eqn:E; [assumption|].
  apply nodup_snoc; [assumption|]. now apply dict_get_none_inv.
Qed.

Lemma dict_set_nonempty d k v : dict_set d k v <> [].
Proof. destruct d as [|[k' v'] d]; simpl; [|destruct (str_eqb k k')]; discriminate. Qed.

End DictFacts.

(** * The line-item column mapper *)

Lemma first_column_leftmost keywords headers n i :
  first_column keywords headers n = Some i
  <-> exists j, i = (n + j)%nat /\ leftmost keywords headers j.
Proof.
  revert n i. induction headers as [|h hs IH]; intros n i; simpl.
  - split; [discriminate|]. intros (j & _ & (h & Hh & _) & _).
    destruct j; discriminate.
  - change (existsb (fun kw => contains kw h) keywords) with (any_in keywords h).
    destruct (any_in keywords h) eqn:E.
    + split.
      * intros [= <-]. exists O. split; [lia|]. split.
        -- exists h. auto.
        -- intros j h' Hj. lia.
      * intros (j & -> & (h' & Hh' & Hk) & Hleft).
        destruct j as [|j]; [f_equal; lia|].
        specialize (Hleft O h (Nat.lt_0_succ j) eq_refl). congruence.
    + rewrite IH. split.
      * intros (j & -> & (h' & Hh' & Hk) & Hleft). exists (S j). split; [lia|]. split.
        -- exists h'. auto.
        -- intros j' h'' Hj' Hn. destruct j' as [|j']; simpl in Hn.
           ++ congruence.
           ++ apply (Hleft j' h''); [lia|assumption].
      * intros (j & -> & (h' & Hh' & Hk) & Hleft). destruct j as [|j].
        -- simpl in Hh'. congruence.
        -- exists j. split; [lia|]. split.
           ++ exists h'. auto.
           ++ intros j' h'' Hj' Hn. apply (Hleft (S j') h''); [lia|assumption].
Qed.

Lemma assign_fold_get headers (l : dict (list str)) (d : dict nat) role :
  NoDup (map fst l) ->
  dict_get (fold_left (assign_step headers) l d) role
  = match dict_get l role with
    | Some keywords =>
      match first_column keywords headers 0 with
      | Some i => Some i
      | None => dict_get d role
      end
    | None => dict_get d role
    end.
Proof.
  revert d. induction l as [|[k kws] l IH]; intros d Hnd; simpl; [reflexivity|].
  inversion Hnd as [|? ? Hk Hnd']; subst.
  rewrite IH by assumption.
  destruct (str_eqb role k) eqn:E.
  - apply str_eqb_eq in E. subst k.
    rewrite (dict_get_none l role Hk).
    unfold assign_step. simpl. destruct (first_column kws headers 0).
    + apply dict_get_set_same.
    + reflexivity.
  - assert (Hne : k <> role) by (intros ->; now rewrite str_eqb_refl in E).
    assert (Hd : dict_get (assign_step headers d (k, kws)) role = dict_get d role).
    { unfold assign_step. simpl. destruct (first_column kws headers 0); [|reflexivity].
      now apply dict_get_set_other. }
    now rewrite Hd.
Qed.

Lemma assign_fold_nodup headers (l : dict (list str)) (d : dict nat) :
  NoDup (map fst d) -> NoDup (map fst (fold_left (assign_step headers) l d)).
Proof.
  revert d. induction l as [|rk l IH]; intros d Hd; simpl; [assumption|].
  apply IH. unfold assign_step. destruct (first_column _ _ _); [|assumption].
  now apply dict_set_nodup.
Qed.

Lemma role_keywords_nodup : NoDup (map fst role_keywords).
Proof.
  repeat constructor; simpl; intros H;
    repeat (destruct H as [H|H]; [discriminate H|]); exact H.
Qed.


Lemma assign_roles_get headers role :
  dict_get (assign_roles headers) role
  = match dict_get role_keywords role with
    | Some keywords => first_column keywords headers 0
    | None => None
    end.
Proof.
  unfold assign_roles.
  rewrite assign_fold_get by apply role_keywords_nodup.
  destruct (dict_get role_keywords role); [|reflexivity].
  destruct (first_column _ _ _); reflexivity.
Qed.

Lemma assign_roles_nodup headers : NoDup (map fst (assign_roles headers)).
Proof. apply assign_fold_nodup. constructor. Qed.

(** The mapper returns the assigned roles or nothing. *)
Lemma map_columns_cases headers :
  (_map_line_item_columns headers = assign_roles headers
   /\ dict_mem (u "description") (assign_roles headers)
      || dict_mem (u "amount") (assign_roles headers) = true)
  \/ (_map_line_item_columns headers = []
      /\ dict_mem (u "description") (assign_roles headers) = false
      /\ dict_mem (u "amount") (assign_roles headers) = false).
Proof.
  unfold _map_line_item_columns.
  destruct (dict_mem (u "description") (assign_roles headers)) eqn:E1;
    destruct (dict_mem (u "amount") (assign_roles headers)) eqn:E2; simpl; auto.
Qed.



(** * A column shared by two roles *)

Lemma contains_prefix p q s :
  contains (p ++ q) s = true -> contains p s = true.
Proof.
  assert (Hs : forall t, starts_with (p ++ q) t = true -> starts_with p t = true).
  { induction p as [|a p IH]; intros t; simpl; [reflexivity|].
    destruct t as [|b t]; [discriminate|].
    intros H. apply andb_true_iff in H. destruct H as [H1 H2].
    rewrite H1. simpl. auto. }
  induction s as [|c s IH]; simpl.
  - rewrite !orb_false_r. apply Hs.
  - intros H. apply orb_true_iff in H. destruct H as [H|H].
    + rewrite (Hs _ H). reflexivity.
    + rewrite (IH H). apply orb_true_r.
Qed.

Lemma fill_role_eq r (item : dict pyval) role col_idx :
  fill_role r item (role, col_idx)
  = match nth_error r col_idx with
    | Some c => dict_set item role (role_value role c)
    | None => item
    end.
Proof.
  unfold fill_role, role_value. destruct (nth_error r col_idx); [|reflexivity].
  destruct (existsb (str_eqb role) numeric_roles); reflexivity.
Qed.

(** What the loop over [col_map.items()] leaves under a role. *)
Lemma fill_get r (col_map : dict nat) (item : dict pyval) role :
  NoDup (map fst col_map) ->
  dict_get (fold_left (fill_role r) col_map item) role
  = match dict_get col_map role with
    | Some col_idx =>
      match nth_error r col_idx with
      | Some c => Some (role_value role c)
      | None => dict_get item role
      end
    | None => dict_get item role
    end.
Proof.
  revert item. induction col_map as [|[k idx] col_map IH]; intros item Hnd;
    [reflexivity|].
  inversion Hnd as [|? ? Hk Hnd']; subst.
  cbn [fold_left dict_get]. rewrite IH by assumption. rewrite fill_role_eq.
  destruct (str_eqb role k) eqn:E.
  - apply str_eqb_eq in E. subst k. rewrite (dict_get_none col_map role Hk).
    destruct (nth_error r idx); [|reflexivity]. apply dict_get_set_same.
  - assert (Hne : k <> role) by (intros ->; now rewrite str_eqb_refl in E).
    assert (Hi : dict_get (match nth_error r idx with
                           | Some c => dict_set item k (role_value k c)
                           | None => item
                           end) role = dict_get item role).
    { destruct (nth_error r idx); [|reflexivity]. now apply dict_get_set_other. }
    now rewrite Hi.
Qed.

(** C10, as stated, fails: with a unit column to the left, the header
    "Unit Price" contains both "unit" and "unit price", yet the unit role
    sits on the unit column and the line item carries the unit cell. *)
Lemma C10_counterexample :
  nth_error (line_item_headers (hd [] table_with_unit_column)) 2 = Some (u "unit price")
  /\ contains (u "unit") (u "unit price") = true
  /\ contains (u "unit price") (u "unit price") = true
  /\ dict_get (_map_line_item_columns (line_item_headers (hd [] table_with_unit_column)))
              (u "unit") = Some 1%nat
  /\ dict_get (_map_line_item_columns (line_item_headers (hd [] table_with_unit_column)))
              (u "unit_price") = Some 2%nat
  /\ table_line_items table_with_unit_column
     = [[ (u "line_no", VInt 1);
          (u "description", VStr (u "Consulting"));
          (u "unit", VStr (u "hours"));
          (u "unit_price", VStr (u "1000.00"));
          (u "amount", VStr (u "10000.00")) ]].
Proof. vm_compute. repeat split; reflexivity. Qed.

(** C10, amended: when the header that contains "unit price" is the
    leftmost header with a unit keyword and the leftmost with a unit-price
    keyword, and the table is accepted, its column is assigned to both roles,
    and every line item made from a row that reaches this column carries the
    cell text as [unit] and the normalized cell as [unit_price]. *)
Theorem C10_shared_column :
  forall headers i h,
    nth_error headers i = Some h ->
    contains (u "unit price") h = true ->
    (forall j h', (j < i)%nat -> nth_error headers j = Some h' ->
                  any_in unit_keywords h' = false
                  /\ any_in unit_price_keywords h' = false) ->
    _map_line_item_columns headers <> [] ->
    dict_get (_map_line_item_columns headers) (u "unit") = Some i
    /\ dict_get (_map_line_item_columns headers) (u "unit_price") = Some i
    /\ forall row_idx r item cell,
         line_item (_map_line_item_columns headers) row_idx r = Some item ->
         nth_error r i = Some cell ->
         dict_get item (u "unit") = Some (VStr (cell_or_empty cell))
         /\ dict_get item (u "unit_price")
            = Some (of_opt (_normalize_amount (cell_or_empty cell))).
Proof.
  intros headers i h Hh Hup Hleft Hne.
  destruct (map_columns_cases headers) as [[Hm _]|[Hm _]]; [|congruence].
  assert (Hu : contains (u "unit") h = true) by exact (contains_prefix (u "unit") (u " price") h Hup).
  assert (Hunit : dict_get (_map_line_item_columns headers) (u "unit") = Some i).
  { rewrite Hm, assign_roles_get.
    change (dict_get role_keywords (u "unit")) with (Some unit_keywords).
    apply first_column_leftmost. exists i. split; [reflexivity|]. split.
    - exists h. split; [assumption|]. unfold any_in, unit_keywords. simpl. now rewrite Hu.
    - intros j h' Hj Hn. now destruct (Hleft j h' Hj Hn). }
  assert (Hprice : dict_get (_map_line_item_columns headers) (u "unit_price") = Some i).
  { rewrite Hm, assign_roles_get.
    change (dict_get role_keywords (u "unit_price")) with (Some unit_price_keywords).
    apply first_column_leftmost. exists i. split; [reflexivity|]. split.
    - exists h. split; [assumption|]. unfold any_in, unit_price_keywords. simpl. now rewrite Hup.
    - intros j h' Hj Hn. now destruct (Hleft j h' Hj Hn). }
  split; [exact Hunit|]. split; [exact Hprice|].
  intros row_idx r item cell Hitem Hcell.
  unfold line_item in Hitem.
  destruct (row_blank r); [discriminate|].
  destruct (truthy _ || truthy _); [|discriminate].
  inversion Hitem; subst item; clear Hitem.
  assert (Hnd : NoDup (map fst (_map_line_item_columns headers))).
  { rewrite Hm. apply assign_roles_nodup. }
  rewrite !fill_get by assumption.
  rewrite Hunit, Hprice, Hcell. split; reflexivity.
Qed.

(** C10 at the table of scenario 2. *)
Lemma C10_witness :
  dict_get (_map_line_item_columns [u "description"; u "qty"; u "unit price"; u "amount"])
           (u "unit") = Some 2%nat
  /\ dict_get (_map_line_item_columns [u "description"; u "qty"; u "unit price"; u "amount"])
              (u "unit_price") = Some 2%nat.
Proof.
  destruct (C10_shared_column [u "description"; u "qty"; u "unit price"; u "amount"]
                              2%nat (u "unit price"))
    as (H1 & H2 & _).
  - reflexivity.
  - reflexivity.
  - intros j h' Hj Hn.
    destruct j as [|[|j]]; [| |lia]; inversion Hn; subst; split; reflexivity.
  - vm_compute. discriminate.
  - split; assumption.
Defined.

(** * Whitespace-only text *)

Lemma space_not_cased c : is_space c = true -> lower_char c = c.
Proof.
  intros H. unfold lower_char, is_upper_ascii.
  destruct (in_range 65 90 c)%N eqn:E1.
  - exfalso. unfold is_space, in_range in *. nbool; lia.
  - destruct (in_range 192 222 c && negb (c =? 215))%N eqn:E2; [|reflexivity].
    exfalso. unfold is_space, in_range in *. nbool; lia.
Qed.

Lemma lstrip_split p s :
  exists pre, s = pre ++ lstrip_by p s /\ forallb p pre = true.
Proof.
  induction s as [|c s (pre & E & Hp)]; simpl.
  - exists []. auto.
  - destruct (p c) eqn:Ec.
    + exists (c :: pre). simpl. rewrite Ec, Hp. split; [now f_equal|reflexivity].
    + exists []. auto.
Qed.

Lemma lstrip_nil p s : lstrip_by p s = [] -> forallb p s = true.
Proof.
  intros H. destruct (lstrip_split p s) as (pre & E & Hp).
  rewrite H, app_nil_r in E. now subst.
Qed.

Lemma forallb_rev {A} (p : A -> bool) l : forallb p (rev l) = forallb p l.
Proof.
  induction l as [|x l IH]; simpl; [reflexivity|].
  rewrite forallb_app, IH. simpl. rewrite andb_true_r. apply andb_comm.
Qed.

(** Blank text consists of whitespace only. *)
Lemma blank_spaces s : blank s -> forallb is_space s = true.
Proof.
  unfold blank, strip, rstrip_by. intros H.
  assert (H1 : lstrip_by is_space (rev (lstrip_by is_space s)) = []).
  { apply (f_equal (@rev N)) in H. now rewrite rev_involutive in H. }
  apply lstrip_nil in H1. rewrite forallb_rev in H1.
  destruct (lstrip_split is_space s) as (pre & E & Hp).
  remember (lstrip_by is_space s) as t. subst s.
  rewrite forallb_app. apply andb_true_iff. split; assumption.
Qed.

Lemma spaces_blank s : forallb is_space s = true -> blank s.
Proof.
  intros H. unfold blank, strip.
  assert (E : lstrip_by is_space s = []).
  { induction s as [|c s IH]; simpl in *; [reflexivity|].
    apply andb_true_iff in H. destruct H as [Hc Hs]. rewrite Hc. auto. }
  rewrite E. reflexivity.
Qed.

Lemma starts_with_head c kw s : starts_with (c :: kw) s = true -> In c s.
Proof.
  destruct s as [|x s]; simpl; [discriminate|].
  intros H. apply andb_true_iff in H. destruct H as [H _].
  apply N.eqb_eq in H. auto.
Qed.

Lemma contains_head c kw s : contains (c :: kw) s = true -> In c s.
Proof.
  induction s as [|x s IH]; intros H.
  - simpl in H. discriminate.
  - cbn [contains] in H. apply orb_true_iff in H. destruct H as [H|H].
    + now apply starts_with_head in H.
    + right. auto.
Qed.

(** A keyword that starts with a visible character does not occur in the
    lower-cased form of a blank text. *)
Lemma blank_has_no_word kw s :
  blank s ->
  match kw with c :: _ => negb (is_space c) | [] => false end = true ->
  contains kw (lower s) = false.
Proof.
  intros Hb Hk. destruct kw as [|c kw]; [discriminate|].
  destruct (contains (c :: kw) (lower s)) eqn:E; [|reflexivity].
  apply contains_head in E. unfold lower in E. apply in_map_iff in E.
  destruct E as (x & Hx & Hin).
  apply blank_spaces in Hb. rewrite forallb_forall in Hb. specialize (Hb x Hin).
  rewrite (space_not_cased x Hb) in Hx. subst x. rewrite Hb in Hk. discriminate.
Qed.

Lemma blank_has_no_words kws s :
  blank s ->
  forallb (fun kw => match kw with c :: _ => negb (is_space c) | [] => false end) kws = true ->
  any_in kws (lower s) = false.
Proof.
  intros Hb. unfold any_in. induction kws as [|kw kws IH]; simpl; [reflexivity|].
  intros H. apply andb_true_iff in H. destruct H as [H1 H2].
  rewrite (blank_has_no_word kw s Hb H1). auto.
Qed.

(** * The document-type classifier *)

Lemma any_in_exists kws text :
  any_in kws text = true <-> exists w, In w kws /\ contains w text = true.
Proof. unfold any_in. apply existsb_exists. Qed.

Lemma any_in_none kws text :
  any_in kws text = false <-> forall w, In w kws -> contains w text = false.
Proof.
  unfold any_in. split.
  - intros H w Hw. destruct (contains w text) eqn:E; [|reflexivity].
    assert (existsb (fun kw => contains kw text) kws = true)
      by (apply existsb_exists; eauto).
    congruence.
  - intros H. destruct (existsb _ kws) eqn:E; [|reflexivity].
    apply existsb_exists in E. destruct E as (w & Hw & Hc).
    rewrite (H w Hw) in Hc. discriminate.
Qed.

(** C7: the classifier returns one of the four types; the pages after the
    first do not matter; a hit of an invoice keyword in the first page's text
    gives invoice, else a hit of a contract keyword gives contract, else a
    hit of a statement keyword gives statement, else generic; blank first-page
    text, a document without pages and a failing reader give generic. *)
Theorem C7_document_type :
  forall pdf,
    In (_detect_document_type pdf)
       [u "invoice"; u "contract"; u "statement"; u "generic"]
    /\ (forall p ps ps',
           pdf = Ret (p :: ps) ->
           _detect_document_type (Ret (p :: ps')) = _detect_document_type pdf)
    /\ (forall p ps t,
           pdf = Ret (p :: ps) -> extract_text p = Ret t ->
           ((exists w, In w invoice_words /\ contains w (lower (or_empty t)) = true) ->
            _detect_document_type pdf = u "invoice")
           /\ ((forall w, In w invoice_words -> contains w (lower (or_empty t)) = false) ->
               (exists w, In w contract_words /\ contains w (lower (or_empty t)) = true) ->
               _detect_document_type pdf = u "contract")
           /\ ((forall w, In w invoice_words -> contains w (lower (or_empty t)) = false) ->
               (forall w, In w contract_words -> contains w (lower (or_empty t)) = false) ->
               (exists w, In w statement_words /\ contains w (lower (or_empty t)) = true) ->
               _detect_document_type pdf = u "statement")
           /\ ((forall w, In w invoice_words -> contains w (lower (or_empty t)) = false) ->
               (forall w, In w contract_words -> contains w (lower (or_empty t)) = false) ->
               (forall w, In w statement_words -> contains w (lower (or_empty t)) = false) ->
               _detect_document_type pdf = u "generic")
           /\ (blank (or_empty t) -> _detect_document_type pdf = u "generic"))
    /\ (pdf = Ret [] -> _detect_document_type pdf = u "generic")
    /\ (forall msg, pdf = Raise msg -> _detect_document_type pdf = u "generic")
    /\ (forall p ps msg,
           pdf = Ret (p :: ps) -> extract_text p = Raise msg ->
           _detect_document_type pdf = u "generic").
Proof.
  intros pdf. split; [|split; [|split; [|split; [|split]]]].
  - unfold _detect_document_type.
    destruct pdf as [msg|[|p ps]]; simpl; [tauto| |].
    + vm_compute. tauto.
    + destruct (extract_text p) as [msg|t]; simpl; [tauto|].
      unfold classify_text.
      destruct (any_in invoice_words _); [simpl; tauto|].
      destruct (any_in contract_words _); [simpl; tauto|].
      destruct (any_in statement_words _); simpl; tauto.
  - intros p ps ps' ->. reflexivity.
  - intros p ps t -> Ht.
    assert (E : _detect_document_type (Ret (p :: ps))
                = match classify_text (lower (or_empty t)) with
                  | Some doc_type => doc_type
                  | None => u "generic"
                  end).
    { unfold _detect_document_type. simpl. rewrite Ht. reflexivity. }
    rewrite E. unfold classify_text. split; [|split; [|split; [|split]]].
    + intros H. apply any_in_exists in H. now rewrite H.
    + intros H1 H2. apply any_in_none in H1. apply any_in_exists in H2.
      now rewrite H1, H2.
    + intros H1 H2 H3. apply any_in_none in H1, H2. apply any_in_exists in H3.
      now rewrite H1, H2, H3.
    + intros H1 H2 H3. apply any_in_none in H1, H2, H3. now rewrite H1, H2, H3.
    + intros Hb.
      rewrite !(blank_has_no_words _ _ Hb) by reflexivity. reflexivity.
  - intros ->. reflexivity.
  - intros msg ->. reflexivity.
  - intros p ps msg -> Ht. unfold _detect_document_type. simpl. now rewrite Ht.
Qed.

Lemma C7_witness :
  _detect_document_type (Ret [invoice_mentioning_contract; scanned_page]) = u "invoice"
  /\ _detect_document_type (Ret [scanned_page]) = u "generic".
Proof.
  split.
  - destruct (C7_document_type (Ret [invoice_mentioning_contract; scanned_page]))
      as (_ & _ & H & _).
    destruct (H invoice_mentioning_contract [scanned_page]
                (Some (u "FAKTURA for contract 42")) eq_refl eq_refl) as (Hinv & _).
    apply Hinv. exists (u "faktura"). split; [simpl; tauto|reflexivity].
  - destruct (C7_document_type (Ret [scanned_page])) as (_ & _ & H & _).
    destruct (H scanned_page [] None eq_refl eq_refl) as (_ & _ & _ & _ & Hb).
    apply Hb. reflexivity.
Defined.

(** * Exceptions of the reader *)

Lemma invoice_pages_raise pages msg :
  pages_raise true pages msg ->
  forall n acc, foldM read_invoice_page (enumerate n pages) acc = Raise msg.
Proof.
  induction 1 as [p ps msg Ht|p ps t msg _ Ht Htb|p ps t msg Ht Htb _ IH];
    intros n [all_text all_tables]; simpl; rewrite Ht; simpl.
  - reflexivity.
  - rewrite Htb. reflexivity.
  - destruct (Htb eq_refl) as (tb & ->). simpl. apply IH.
Qed.

Lemma statement_pages_raise pages msg :
  pages_raise true pages msg ->
  forall n acc, foldM read_statement_page (enumerate n pages) acc = Raise msg.
Proof.
  induction 1 as [p ps msg Ht|p ps t msg _ Ht Htb|p ps t msg Ht Htb _ IH];
    intros n [all_text all_tables]; simpl; rewrite Ht; simpl.
  - reflexivity.
  - rewrite Htb. reflexivity.
  - destruct (Htb eq_refl) as (tb & ->). simpl. apply IH.
Qed.

Lemma generic_pages_raise pages msg :
  pages_raise true pages msg ->
  forall n acc, foldM read_generic_page (enumerate n pages) acc = Raise msg.
Proof.
  induction 1 as [p ps msg Ht|p ps t msg _ Ht Htb|p ps t msg Ht Htb _ IH];
    intros n [[all_text text_blocks] tables]; simpl; rewrite Ht; simpl.
  - reflexivity.
  - rewrite Htb. reflexivity.
  - destruct (Htb eq_refl) as (tb & ->). simpl. apply IH.
Qed.

Lemma contract_pages_raise pages msg :
  pages_raise false pages msg ->
  forall n acc, foldM read_text_page (enumerate n pages) acc = Raise msg.
Proof.
  induction 1 as [p ps msg Ht|p ps t msg Hf Ht Htb|p ps t msg Ht Htb _ IH];
    intros n all_text; simpl; unfold read_text_page at 1; simpl.
  - rewrite Ht. reflexivity.
  - discriminate.
  - rewrite Ht. simpl. apply IH.
Qed.

(** Every outcome of the four extractors is a well-formed result. *)
Lemma invoice_well_formed pdf elapsed :
  well_formed elapsed (extract_invoice_data_ml pdf elapsed).
Proof.
  unfold extract_invoice_data_ml, bind.
  destruct pdf as [msg|pages]; [right; eauto|].
  destruct (foldM read_invoice_page _ _) as [msg|[all_text all_tables]]; [right; eauto|].
  destruct (strip all_text); [right; eauto|].
  destruct (invoice_fields all_text). left. split; reflexivity.
Qed.

Lemma contract_well_formed pdf elapsed :
  well_formed elapsed (extract_contract_data_ml pdf elapsed).
Proof.
  unfold extract_contract_data_ml, bind.
  destruct pdf as [msg|pages]; [right; eauto|].
  destruct (foldM read_text_page _ _) as [msg|all_text]; [right; eauto|].
  destruct (strip all_text); [right; eauto|].
  destruct (contract_fields all_text). left. split; reflexivity.
Qed.

Lemma statement_well_formed pdf elapsed :
  well_formed elapsed (extract_financial_statement_ml pdf elapsed).
Proof.
  unfold extract_financial_statement_ml, bind.
  destruct pdf as [msg|pages]; [right; eauto|].
  destruct (foldM read_statement_page _ _) as [msg|[all_text all_tables]]; [right; eauto|].
  destruct all_tables.
  - destruct (_extract_statement_from_text all_text); [right; eauto|].
    left. split; reflexivity.
  - left. split; reflexivity.
Qed.

Lemma generic_well_formed pdf elapsed :
  well_formed elapsed (extract_generic_data_ml pdf elapsed).
Proof.
  unfold extract_generic_data_ml, bind.
  destruct pdf as [msg|pages]; [right; eauto|].
  destruct (foldM read_generic_page _ _) as [msg|[[all_text text_blocks] tables]];
    [right; eauto|].
  left. split; reflexivity.
Qed.

(** C9: each extractor returns a well-formed result on every input, and an
    exception raised while the document is read (by opening it, by reading
    the text of a page, or by reading its tables where the extractor reads
    them) becomes the error result that carries the message of the
    exception. *)
Theorem C9_exceptions_become_error_results :
  forall pdf elapsed,
    (well_formed elapsed (extract_invoice_data_ml pdf elapsed)
     /\ well_formed elapsed (extract_contract_data_ml pdf elapsed)
     /\ well_formed elapsed (extract_financial_statement_ml pdf elapsed)
     /\ well_formed elapsed (extract_generic_data_ml pdf elapsed))
    /\ (forall msg,
           reading_raises true pdf msg ->
           extract_invoice_data_ml pdf elapsed = _error_result msg elapsed
           /\ extract_financial_statement_ml pdf elapsed = _error_result msg elapsed
           /\ extract_generic_data_ml pdf elapsed = _error_result msg elapsed)
    /\ (forall msg,
           reading_raises false pdf msg ->
           extract_contract_data_ml pdf elapsed = _error_result msg elapsed)
    /\ (forall msg,
           success (_error_result msg elapsed) = false
           /\ confidence (_error_result msg elapsed) = 0.0
           /\ requires_review (_error_result msg elapsed) = false
           /\ data (_error_result msg elapsed) = []
           /\ error (_error_result msg elapsed) = Some msg).
Proof.
  intros pdf elapsed. split; [|split; [|split]].
  - repeat split.
    + apply invoice_well_formed.
    + apply contract_well_formed.
    + apply statement_well_formed.
    + apply generic_well_formed.
  - intros msg [->|(pages & -> & Hr)]; [repeat split; reflexivity|].
    repeat split.
    + unfold extract_invoice_data_ml, bind.
      now rewrite (invoice_pages_raise pages msg Hr).
    + unfold extract_financial_statement_ml, bind.
      now rewrite (statement_pages_raise pages msg Hr).
    + unfold extract_generic_data_ml, bind.
      now rewrite (generic_pages_raise pages msg Hr).
  - intros msg [->|(pages & -> & Hr)]; [reflexivity|].
    unfold extract_contract_data_ml, bind.
    now rewrite (contract_pages_raise pages msg Hr).
  - intros msg. repeat split; reflexivity.
Qed.

(** A document whose second page has unreadable tables, and a file that
    cannot be opened. *)
Lemma C9_witness :
  extract_invoice_data_ml (Ret [scanned_page; broken_page]) 0.25
  = _error_result (u "boom") 0.25
  /\ extract_contract_data_ml (Raise (u "No such file")) 0.25
     = _error_result (u "No such file") 0.25.
Proof.
  destruct (C9_exceptions_become_error_results (Ret [scanned_page; broken_page]) 0.25)
    as (_ & H & _).
  destruct (C9_exceptions_become_error_results (Raise (u "No such file")) 0.25)
    as (_ & _ & H' & _).
  split.
  - apply H. right. exists [scanned_page; broken_page]. split; [reflexivity|].
    apply raise_later with (t := None); [reflexivity|intros _; eexists; reflexivity|].
    apply raise_tables with (t := Some (u "Invoice 42")); reflexivity.
  - apply H'. left. reflexivity.
Defined.

(** * Value and confidence of the primitives *)

Lemma found_coupled r : found_or_not r -> coupled r.
Proof.
  intros [->|(v & c & -> & Hc)]; unfold coupled; simpl.
  - split; reflexivity.
  - split; [discriminate|]. intros E. rewrite E in Hc. discriminate.
Qed.

Lemma first_hit_some {A B} (f : A -> option B) l y :
  first_hit f l = Some y -> exists x, In x l /\ f x = Some y.
Proof.
  induction l as [|x l IH]; simpl; [discriminate|].
  destruct (f x) eqn:E.
  - intros [= <-]. exists x. auto.
  - intros H. destruct (IH H) as (x' & Hin & Hf). exists x'. auto.
Qed.

(** A loop whose hits are values at positive confidences. *)
Lemma loop_found {A} (f : A -> option (option str * Q)) l :
  (forall x y, In x l -> f x = Some y -> exists v c, y = (Some v, c) /\ 0 < c) ->
  found_or_not (match first_hit f l with Some r => r | None => (None, 0.0) end).
Proof.
  intros H. destruct (first_hit f l) as [y|] eqn:E; [|left; reflexivity].
  apply first_hit_some in E. destruct E as (x & Hin & Hf). right. eauto.
Qed.

Lemma invoice_number_found text : found_or_not (_extract_invoice_number text).
Proof.
  unfold _extract_invoice_number. apply loop_found. intros pc y Hin H.
  take_hit H. simpl in Hin.
  repeat (destruct Hin as [<-|Hin]; [good_hit|]). destruct Hin.
Qed.

Lemma labeled_date_found text labels : found_or_not (_extract_labeled_date text labels).
Proof.
  unfold _extract_labeled_date.
  destruct (first_hit _ labels) as [y|] eqn:E.
  - apply first_hit_some in E. destruct E as (label & _ & E).
    apply first_hit_some in E. destruct E as (date_pat & _ & E).
    take_hit E. right. good_hit.
  - apply loop_found. intros label y _ H.
    destruct (find (lower text) (lower label)); [|discriminate].
    apply first_hit_some in H. destruct H as (date_pat & _ & H).
    take_hit H. good_hit.
Qed.

Lemma truthy_is_some o : str_truthy o = true -> exists v, o = Some v.
Proof. destruct o as [[|c s]|]; try discriminate. eauto. Qed.

Lemma labeled_amount_found text labels :
  found_or_not (_extract_labeled_amount text labels).
Proof.
  unfold _extract_labeled_amount.
  destruct (first_hit _ labels) as [y|] eqn:E.
  - apply first_hit_some in E. destruct E as (label & _ & E).
    destruct (search _ _ _); [|discriminate].
    destruct (str_truthy _) eqn:T; [|discriminate].
    apply truthy_is_some in T. destruct T as (v & T). rewrite T in E.
    inversion E; subst. right. good_hit.
  - apply loop_found. intros label y _ H.
    destruct (find (lower text) (lower label)); [|discriminate].
    destruct (last_of _); [|discriminate].
    destruct (str_truthy _) eqn:T; [|discriminate].
    apply truthy_is_some in T. destruct T as (v & T). rewrite T in H.
    inversion H; subst. good_hit.
Qed.

Lemma labeled_value_found text labels :
  found_or_not (_extract_labeled_value text labels).
Proof.
  unfold _extract_labeled_value. apply loop_found. intros label y _ H.
  take_hit H. good_hit.
Qed.

Lemma entity_name_found text labels :
  found_or_not (_extract_entity_name text labels).
Proof.
  unfold _extract_entity_name.
  destruct (first_hit _ labels) as [y|] eqn:E.
  - apply first_hit_some in E. destruct E as (label & _ & E).
    take_hit E. right. good_hit.
  - destruct (split_on nl text); [left; reflexivity|].
    destruct (2 <? _)%nat; [|left; reflexivity].
    destruct (_ && _); [right; good_hit|left; reflexivity].
Qed.

Lemma address_found text entity_type : found_or_not (_extract_address text entity_type).
Proof.
  unfold _extract_address. destruct (search _ _ _); [right; good_hit|left; reflexivity].
Qed.

Lemma tax_id_found text labels : found_or_not (_extract_tax_id text labels).
Proof.
  unfold _extract_tax_id. apply loop_found. intros label y _ H.
  take_hit H. good_hit.
Qed.

Lemma tax_rate_found text : found_or_not (_extract_tax_rate text).
Proof.
  unfold _extract_tax_rate. apply loop_found. intros p y _ H.
  take_hit H. good_hit.
Qed.

Lemma first_ranked_found patterns text :
  Forall (fun pc : String.string * Q => 0 < snd pc) patterns ->
  found_or_not (first_ranked patterns text).
Proof.
  intros Hp. unfold first_ranked. apply loop_found. intros pc y Hin H.
  take_hit H. rewrite Forall_forall in Hp. do 2 eexists. split; [reflexivity|].
  now apply Hp.
Qed.

Lemma payment_terms_found text : found_or_not (_extract_payment_terms text).
Proof.
  unfold _extract_payment_terms. apply first_ranked_found.
  repeat constructor.
Qed.

Lemma bank_info_found text : found_or_not (_extract_bank_info text).
Proof.
  unfold _extract_bank_info. apply first_ranked_found.
  repeat constructor.
Qed.

Lemma currency_found text : found_or_not (_detect_currency text).
Proof.
  unfold _detect_currency.
  match goal with
  | |- found_or_not (match ?e with _ => _ end) => destruct e as [|[k n] r]
  end; [left; reflexivity|right; good_hit].
Qed.

Lemma clause_found text labels : found_or_not (_extract_clause text labels).
Proof.
  unfold _extract_clause. apply loop_found. intros label y _ H.
  take_hit H. good_hit.
Qed.

(** The parties come as a list: empty at confidence 0.0, never [None]. *)
Lemma parties_found text :
  _extract_contract_parties text = ([], 0.0)
  \/ exists p ps c, _extract_contract_parties text = (p :: ps, c) /\ 0 < c.
Proof.
  unfold _extract_contract_parties.
  destruct (search _ _ _).
  - right. do 3 eexists. split; reflexivity.
  - destruct (findall _ _ _) as [|x xs]; [left; reflexivity|].
    right. do 3 eexists. split; reflexivity.
Qed.

(** C4, as stated, fails for the contract parties: a text that names no
    parties gives confidence 0.0 with the empty list, not with [None]. *)
Lemma C4_counterexample :
  snd (_extract_contract_parties (u "Standard terms apply.")) == 0.0
  /\ vstrs (fst (_extract_contract_parties (u "Standard terms apply."))) = VList []
  /\ vstrs (fst (_extract_contract_parties (u "Standard terms apply."))) <> VNone.
Proof. vm_compute. repeat split; congruence. Qed.

(** C4, amended: every primitive that returns a single value returns [None]
    exactly at confidence 0.0; the contract-parties extractor returns a list,
    which is empty exactly at confidence 0.0. *)
Theorem C4_value_confidence_coupling :
  forall text labels entity_type,
    coupled (_extract_labeled_date text labels)
    /\ coupled (_extract_labeled_amount text labels)
    /\ coupled (_extract_labeled_value text labels)
    /\ coupled (_extract_entity_name text labels)
    /\ coupled (_extract_address text entity_type)
    /\ coupled (_extract_tax_id text labels)
    /\ coupled (_extract_tax_rate text)
    /\ coupled (_extract_payment_terms text)
    /\ coupled (_extract_bank_info text)
    /\ coupled (_detect_currency text)
    /\ (fst (_extract_contract_parties text) = []
        <-> snd (_extract_contract_parties text) == 0.0).
Proof.
  intros text labels entity_type.
  repeat split; try (apply found_coupled).
  all: try first
           [ apply labeled_date_found | apply labeled_amount_found
           | apply labeled_value_found | apply entity_name_found
           | apply address_found | apply tax_id_found | apply tax_rate_found
           | apply payment_terms_found | apply bank_info_found
           | apply currency_found ].
  - intros H. destruct (parties_found text) as [E|(p & ps & c & E & Hc)];
      rewrite E in *; [reflexivity|discriminate].
  - intros H. destruct (parties_found text) as [E|(p & ps & c & E & Hc)];
      rewrite E in *; [reflexivity|].
    simpl in H. rewrite H in Hc. discriminate.
Qed.

(** * Patterns that need a character of some kind *)

Section NeedsIn.

Variable P : char -> Prop.
Variable okc : char -> bool.
Variable ok : cset_item -> bool.
Hypothesis okc_sound : forall p, okc p = true -> P p.
Hypothesis ok_sound : forall it c, ok it = true -> item_has it c = true -> P c.

Lemma needs_in_sound r : needs_in okc ok r = true -> needs no_flags P r.
Proof.
  induction r; simpl; try discriminate.
  - intros H x Hx. unfold chr_eq in Hx. simpl in Hx. rewrite orb_false_r in Hx.
    apply N.eqb_eq in Hx. subst x. auto.
  - destruct neg; [discriminate|]. intros H x Hx. simpl in Hx.
    unfold set_has in Hx. apply existsb_exists in Hx. destruct Hx as (it & Hin & Hit).
    simpl in Hit. rewrite orb_false_r in Hit.
    rewrite forallb_forall in H. eauto.
  - intros H. apply orb_true_iff in H. tauto.
  - intros H. apply andb_true_iff in H. tauto.
  - intros H. apply andb_true_iff in H. destruct H as [H1 H2].
    apply Nat.ltb_lt in H1. auto.
  - auto.
Qed.

End NeedsIn.

Lemma needs_digit r :
  needs_in is_digit only_digit r = true ->
  needs no_flags (fun c => is_digit c = true) r.
Proof.
  apply needs_in_sound; [auto|].
  intros it x H; destruct it; try discriminate. auto.
Qed.

Lemma needs_space r :
  needs_in is_space only_space r = true ->
  needs no_flags (fun c => is_space c = true) r.
Proof.
  apply needs_in_sound; [auto|].
  intros it x H; destruct it; try discriminate. auto.
Qed.

Lemma needs_char x r :
  needs_in (N.eqb x) (only_char x) r = true ->
  needs no_flags (fun c => c = x) r.
Proof.
  apply needs_in_sound.
  - intros p H. apply N.eqb_eq in H. auto.
  - intros it y H; destruct it; try discriminate. simpl in *. intros Hc.
    apply N.eqb_eq in H, Hc. congruence.
Qed.

(** * Reading the pages *)

Lemma split_on_chars sep s l c : In l (split_on sep s) -> In c l -> In c s.
Proof.
  revert l. induction s as [|x s IH]; intros l; simpl.
  - intros [<-|[]] [].
  - destruct (x =? sep)%N.
    + intros [<-|H] Hc; [destruct Hc|]. right. eauto.
    + destruct (split_on sep s) as [|l0 ls] eqn:E.
      * intros [<-|[]] [->|[]]. now left.
      * intros [<-|H] Hc.
        -- destruct Hc as [->|Hc]; [now left|]. right. apply (IH l0); simpl; auto.
        -- right. apply (IH l); simpl; auto.
Qed.

Lemma invoice_read pages : forall n all_text all_tables t tabs,
  foldM read_invoice_page (enumerate n pages) (all_text, all_tables) = Ret (t, tabs) ->
  t = all_text ++ gathered_text pages.
Proof.
  induction pages as [|p ps IH]; intros n all_text all_tables t tabs; simpl.
  - intros [= <- <-]. now rewrite app_nil_r.
  - unfold page_text. destruct (extract_text p) as [msg|t0]; simpl; [discriminate|].
    destruct (extract_tables p) as [msg|tb]; simpl; [discriminate|].
    intros H. apply IH in H. rewrite H. now rewrite <- !app_assoc.
Qed.

Lemma contract_read pages : forall n all_text t,
  foldM read_text_page (enumerate n pages) all_text = Ret t ->
  t = all_text ++ gathered_text pages.
Proof.
  induction pages as [|p ps IH]; intros n all_text t; simpl.
  - intros [= <-]. now rewrite app_nil_r.
  - unfold read_text_page at 1, page_text. simpl.
    destruct (extract_text p) as [msg|t0]; simpl; [discriminate|].
    intros H. apply IH in H. rewrite H. now rewrite <- !app_assoc.
Qed.

Lemma statement_read pages : forall n all_text all_tables t tabs,
  foldM read_statement_page (enumerate n pages) (all_text, all_tables) = Ret (t, tabs) ->
  t = all_text ++ gathered_text pages
  /\ (no_body_tables pages -> tabs = all_tables)
  /\ (all_tables <> [] -> tabs <> []).
Proof.
  induction pages as [|p ps IH]; intros n all_text all_tables t tabs; simpl.
  - intros [= <- <-]. rewrite app_nil_r. auto.
  - unfold page_text, no_body_tables.
    destruct (extract_text p) as [msg|t0]; simpl; [discriminate|].
    destruct (extract_tables p) as [msg|tb] eqn:Etb; simpl; [discriminate|].
    intros H. apply IH in H. destruct H as (H1 & H2 & H3).
    split; [rewrite H1; now rewrite <- !app_assoc|]. split.
    + intros Hn. inversion Hn as [|? ? Hp Hps]; subst.
      rewrite (H2 Hps). unfold page_tables in Hp. rewrite Etb in Hp.
      assert (E : forall k, flat_map (fun it => statement_table n (fst it) (snd it))
                                     (enumerate k tb) = []).
      { clear -Hp. induction tb as [|t0 tb IHtb]; intros k; simpl; [reflexivity|].
        inversion Hp as [|? ? Ht Htb]; subst. rewrite (IHtb Htb).
        destruct t0 as [|h [|r0 b]]; try reflexivity. discriminate. }
      rewrite E. apply app_nil_r.
    + intros Hne. apply H3. destruct all_tables; [congruence|discriminate].
Qed.

Lemma generic_read pages : forall n all_text text_blocks tables t bl tabs,
  foldM read_generic_page (enumerate n pages) (all_text, text_blocks, tables)
  = Ret (t, bl, tabs) ->
  t = all_text ++ gathered_text pages.
Proof.
  induction pages as [|p ps IH]; intros n all_text text_blocks tables t bl tabs; simpl.
  - intros [= <- <- <-]. now rewrite app_nil_r.
  - unfold page_text. destruct (extract_text p) as [msg|t0]; simpl; [discriminate|].
    destruct (extract_tables p) as [msg|tb]; simpl; [discriminate|].
    intros H. apply IH in H. rewrite H. now rewrite <- !app_assoc.
Qed.

(** Readable pages are read to the end. *)
Lemma invoice_readable pages : forall n acc,
  Forall readable pages ->
  exists r, foldM read_invoice_page (enumerate n pages) acc = Ret r.
Proof.
  induction pages as [|p ps IH]; intros n [all_text all_tables] H; simpl; [eauto|].
  inversion H as [|? ? [(t & Ht) (tb & Htb)] Hps]; subst.
  rewrite Ht, Htb. simpl. now apply IH.
Qed.

Lemma contract_readable pages : forall n acc,
  Forall readable pages ->
  exists r, foldM read_text_page (enumerate n pages) acc = Ret r.
Proof.
  induction pages as [|p ps IH]; intros n all_text H; simpl; [eauto|].
  inversion H as [|? ? [(t & Ht) _] Hps]; subst.
  unfold read_text_page at 1. simpl. rewrite Ht. simpl. now apply IH.
Qed.

Lemma statement_readable pages : forall n acc,
  Forall readable pages ->
  exists r, foldM read_statement_page (enumerate n pages) acc = Ret r.
Proof.
  induction pages as [|p ps IH]; intros n [all_text all_tables] H; simpl; [eauto|].
  inversion H as [|? ? [(t & Ht) (tb & Htb)] Hps]; subst.
  rewrite Ht, Htb. simpl. now apply IH.
Qed.

Lemma generic_readable pages : forall n acc,
  Forall readable pages ->
  exists r, foldM read_generic_page (enumerate n pages) acc = Ret r.
Proof.
  induction pages as [|p ps IH]; intros n [[all_text text_blocks] tables] H; simpl;
    [eauto|].
  inversion H as [|? ? [(t & Ht) (tb & Htb)] Hps]; subst.
  rewrite Ht, Htb. simpl. now apply IH.
Qed.

(** * Rounding and the review threshold *)



Lemma hundredths_le n m : (n <= m)%Z -> inject_Z n / 100 <= inject_Z m / 100.
Proof.
  intros H. unfold Qle, Qdiv, Qmult, Qinv, inject_Z. simpl. lia.
Qed.



(** * The review flag *)








(** The other direction fails as well: the generic extractor reports 0.50
    for a short document and does not flag it. *)
Example generic_short_not_flagged :
  success (extract_generic_data_ml (Ret [scanned_page]) 0.25) = true
  /\ confidence (extract_generic_data_ml (Ret [scanned_page]) 0.25) = 0.50
  /\ requires_review (extract_generic_data_ml (Ret [scanned_page]) 0.25) = false.
Proof. vm_compute. repeat split; reflexivity. Qed.



(** * Documents without text *)

Lemma space_not_digit c : is_space c = true -> is_digit c = false.
Proof.
  intros H. destruct (is_digit c) eqn:E; [|reflexivity].
  exfalso. unfold is_space, is_digit, in_range in *. nbool; lia.
Qed.

Lemma flat_map_nil {A B} (f : A -> list B) l :
  (forall x, In x l -> f x = []) -> flat_map f l = [].
Proof.
  induction l as [|x l IH]; simpl; intros H; [reflexivity|].
  rewrite (H x) by now left. apply IH. auto.
Qed.

(** The line parser of the statement fallback finds nothing in blank text. *)
Lemma blank_statement_items text : blank text -> statement_items text = [].
Proof.
  intros Hb. unfold statement_items. apply flat_map_nil. intros line Hline.
  unfold rmatch.
  rewrite (match_at_none no_flags (fun c => is_digit c = true)); [reflexivity| |].
  - apply needs_digit. vm_compute. reflexivity.
  - apply Forall_forall. intros c Hc.
    apply blank_spaces in Hb. rewrite forallb_forall in Hb.
    rewrite (space_not_digit c); [discriminate|].
    apply Hb. eapply split_on_chars; eauto.
Qed.

(** C8, as stated, fails: a page without a text layer goes through the
    generic extractor as a success at confidence 0.50. *)
Lemma C8_counterexample :
  blank (gathered_text [scanned_page])
  /\ success (extract_generic_data_ml (Ret [scanned_page]) 0.25) = true
  /\ confidence (extract_generic_data_ml (Ret [scanned_page]) 0.25) = 0.50
  /\ error (extract_generic_data_ml (Ret [scanned_page]) 0.25) = None.
Proof. vm_compute. repeat split; reflexivity. Qed.

(** C8, amended: on a readable document whose text is empty or
    whitespace-only, the invoice and the contract extractor return their
    error result; so does the statement extractor when no table has a body
    row; the generic extractor has no such check and returns a success. *)
Theorem C8_blank_document :
  forall pages elapsed,
    Forall readable pages ->
    blank (gathered_text pages) ->
    extract_invoice_data_ml (Ret pages) elapsed
    = _error_result (u "No text could be extracted from this PDF") elapsed
    /\ extract_contract_data_ml (Ret pages) elapsed
       = _error_result (u "No text could be extracted") elapsed
    /\ (no_body_tables pages ->
        extract_financial_statement_ml (Ret pages) elapsed
        = _error_result (u "No tables found in financial statement") elapsed)
    /\ success (extract_generic_data_ml (Ret pages) elapsed) = true
    /\ error (extract_generic_data_ml (Ret pages) elapsed) = None.
Proof.
  intros pages elapsed Hr Hb. split; [|split; [|split]].
  - unfold extract_invoice_data_ml, bind.
    destruct (invoice_readable pages 1%nat ([], []) Hr) as ([t tabs] & E).
    rewrite E. apply invoice_read in E. simpl in E. subst t.
    unfold blank in Hb. rewrite Hb. reflexivity.
  - unfold extract_contract_data_ml, bind.
    destruct (contract_readable pages 1%nat [] Hr) as (t & E).
    rewrite E. apply contract_read in E. simpl in E. subst t.
    unfold blank in Hb. rewrite Hb. reflexivity.
  - intros Hn. unfold extract_financial_statement_ml, bind.
    destruct (statement_readable pages 1%nat ([], []) Hr) as ([t tabs] & E).
    rewrite E. apply statement_read in E. destruct E as (Et & Etabs & _).
    simpl in Et. subst t. rewrite (Etabs Hn).
    unfold _extract_statement_from_text. rewrite (blank_statement_items _ Hb).
    reflexivity.
  - unfold extract_generic_data_ml, bind.
    destruct (generic_readable pages 1%nat ([], [], []) Hr) as ([[t bl] tabs] & E).
    rewrite E. split; reflexivity.
Qed.

(** C8 at a page without a text layer. *)
Lemma C8_witness :
  extract_invoice_data_ml (Ret [scanned_page]) 0.25
  = _error_result (u "No text could be extracted from this PDF") 0.25
  /\ extract_financial_statement_ml (Ret [scanned_page]) 0.25
     = _error_result (u "No tables found in financial statement") 0.25.
Proof.
  assert (Hr : Forall readable [scanned_page]).
  { repeat constructor; eexists; reflexivity. }
  assert (Hb : blank (gathered_text [scanned_page])) by reflexivity.
  destruct (C8_blank_document [scanned_page] 0.25 Hr Hb) as (H1 & _ & H3 & _).
  split; [exact H1|]. apply H3. repeat constructor.
Defined.

(** * The amount normalizer *)

Lemma succ_minus n : (S n - n = 1)%nat.
Proof. lia. Qed.

(** A character set matches one character or nothing. *)
Lemma match_at_set fl neg items bef c aft :
  (xorb neg (set_has fl items c) = true ->
   exists m, match_at fl (CSet neg items) bef (c :: aft) = Some m /\ m_whole m = [c])
  /\ (xorb neg (set_has fl items c) = false ->
      match_at fl (CSet neg items) bef (c :: aft) = None).
Proof.
  unfold match_at. simpl. split; intros ->.
  - eexists. split; [reflexivity|]. unfold consumed. cbn -[Nat.sub firstn].
    rewrite succ_minus. reflexivity.
  - reflexivity.
Qed.

(** Deleting the matches of a character set filters the text. *)
Lemma sub_set_filter fl neg items s : forall bef,
  sub_at fl (CSet neg items) [] bef s 0
  = filter (fun c => negb (xorb neg (set_has fl items c))) s.
Proof.
  induction s as [|c s IH]; intros bef.
  - reflexivity.
  - cbn [sub_at filter].
    destruct (match_at_set fl neg items bef c s) as [Hy Hn].
    destruct (xorb neg (set_has fl items c)) eqn:E.
    + destruct (Hy eq_refl) as (m & -> & Hw). rewrite Hw. simpl. apply IH.
    + rewrite (Hn eq_refl). simpl. f_equal. apply IH.
Qed.

Lemma non_numeric_removed s :
  sub no_flags re_non_numeric [] s = filter digit_or_dot s.
Proof.
  unfold sub. change re_non_numeric with (CSet true [CDigit; CChar (ch ".")]).
  rewrite sub_set_filter. apply filter_ext. intros c.
  unfold set_has, digit_or_dot. simpl. rewrite !orb_false_r.
  now destruct (is_digit c || (c =? 46)%N).
Qed.

Lemma filter_all {A} (p : A -> bool) l : forallb p (filter p l) = true.
Proof.
  induction l as [|x l IH]; simpl; [reflexivity|].
  destruct (p x) eqn:E; simpl; [rewrite E|]; auto.
Qed.

Lemma filter_id {A} (p : A -> bool) l : forallb p l = true -> filter p l = l.
Proof.
  induction l as [|x l IH]; simpl; [reflexivity|].
  intros H. apply andb_true_iff in H. destruct H as [-> H]. f_equal. auto.
Qed.

Lemma lstrip_id p s :
  forallb (fun c => negb (p c)) s = true -> lstrip_by p s = s.
Proof.
  destruct s as [|c s]; simpl; [reflexivity|].
  intros H. apply andb_true_iff in H. destruct H as [H _].
  apply negb_true_iff in H. now rewrite H.
Qed.

(** Text without whitespace is its own [strip()]. *)
Lemma strip_id s : forallb (fun c => negb (is_space c)) s = true -> strip s = s.
Proof.
  intros H. unfold strip, rstrip_by. rewrite (lstrip_id _ s H).
  rewrite lstrip_id by now rewrite forallb_rev. apply rev_involutive.
Qed.

Lemma forallb_impl {A} (p q : A -> bool) l :
  (forall x, p x = true -> q x = true) -> forallb p l = true -> forallb q l = true.
Proof.
  intros Hpq. induction l as [|x l IH]; simpl; [reflexivity|].
  intros H. apply andb_true_iff in H. destruct H as [H1 H2].
  rewrite (Hpq x H1). auto.
Qed.

(** What a digit or a dot is not. *)
Lemma digit_or_dot_plain c :
  digit_or_dot c = true ->
  is_space c = false /\ lower_char c = c
  /\ (c =? ch "+")%N = false /\ (c =? ch "-")%N = false
  /\ (c =? ch "_")%N = false /\ (c =? ch "e")%N = false /\ (c =? ch "E")%N = false
  /\ (is_digit c = false -> (c =? ch ".")%N = true).
Proof.
  intros H. unfold digit_or_dot in H.
  assert (Hc : (48 <= c <= 57)%N \/ c = 46%N).
  { unfold is_digit, in_range in H. nbool; [left; lia|right; assumption]. }
  repeat split.
  - destruct (is_space c) eqn:E; [|reflexivity].
    exfalso. unfold is_space, in_range in E. nbool; lia.
  - unfold lower_char, is_upper_ascii, in_range.
    destruct (65 <=? c)%N eqn:E1; [apply N.leb_le in E1; lia|].
    destruct (192 <=? c)%N eqn:E2; [apply N.leb_le in E2; lia|].
    reflexivity.
  - apply N.eqb_neq. simpl. lia.
  - apply N.eqb_neq. simpl. lia.
  - apply N.eqb_neq. simpl. lia.
  - apply N.eqb_neq. simpl. lia.
  - apply N.eqb_neq. simpl. lia.
  - intros Hd. rewrite Hd in H. exact H.
Qed.

Lemma digit_is_plain c : is_digit c = true -> digit_or_dot c = true.
Proof. intros H. unfold digit_or_dot. now rewrite H. Qed.

Lemma digit_not_dot c : is_digit c = true -> (c =? ch ".")%N = false.
Proof.
  intros H. apply N.eqb_neq. unfold is_digit, in_range in H. nbool. simpl. lia.
Qed.

Lemma plain_strip s : forallb digit_or_dot s = true -> strip s = s.
Proof.
  intros H. apply strip_id. revert H. apply forallb_impl.
  intros c Hc. destruct (digit_or_dot_plain c Hc) as (-> & _). reflexivity.
Qed.

Lemma plain_lower s : forallb digit_or_dot s = true -> lower s = s.
Proof.
  induction s as [|c s IH]; simpl; [reflexivity|].
  intros H. apply andb_true_iff in H. destruct H as [Hc Hs].
  destruct (digit_or_dot_plain c Hc) as (_ & -> & _). f_equal. auto.
Qed.

Lemma plain_no_sign s : forallb digit_or_dot s = true -> drop_sign s = s.
Proof.
  destruct s as [|c s]; cbn [drop_sign forallb]; [reflexivity|].
  intros H. apply andb_true_iff in H. destruct H as [Hc _].
  destruct (digit_or_dot_plain c Hc) as (_ & _ & -> & -> & _). reflexivity.
Qed.

Lemma plain_digitpart_rest s :
  forallb digit_or_dot s = true -> digitpart_rest s = lstrip_by is_digit s.
Proof.
  induction s as [|c s IH]; cbn [digitpart_rest forallb lstrip_by]; [reflexivity|].
  intros H. apply andb_true_iff in H. destruct H as [Hc Hs].
  destruct (is_digit c); [auto|].
  destruct (digit_or_dot_plain c Hc) as (_ & _ & _ & _ & -> & _). reflexivity.
Qed.

Lemma plain_exponent s :
  forallb digit_or_dot s = true -> exponent_to_end s = true -> s = [].
Proof.
  destruct s as [|c s]; cbn [exponent_to_end forallb]; [reflexivity|].
  intros H. apply andb_true_iff in H. destruct H as [Hc _].
  destruct (digit_or_dot_plain c Hc) as (_ & _ & _ & _ & _ & -> & -> & _).
  discriminate.
Qed.

Lemma plain_not_word s w :
  forallb digit_or_dot s = true -> forallb digit_or_dot w = false ->
  str_eqb (lower s) w = false.
Proof.
  intros Hs Hw. rewrite (plain_lower s Hs).
  destruct (str_eqb s w) eqn:E; [|reflexivity].
  apply str_eqb_eq in E. congruence.
Qed.

(** On digits and dots, [float] accepts what remains of its grammar. *)
Lemma plain_float_ok s :
  forallb digit_or_dot s = true ->
  float_ok s
  = match digitpart s with
    | Some r =>
      match r with
      | c :: r1 =>
        if (c =? ch ".")%N then
          match digitpart r1 with
          | Some r2 => exponent_to_end r2
          | None => exponent_to_end r1
          end
        else exponent_to_end r
      | [] => true
      end
    | None =>
      match s with
      | c :: r1 =>
        if (c =? ch ".")%N then
          match digitpart r1 with
          | Some r2 => exponent_to_end r2
          | None => false
          end
        else false
      | [] => false
      end
    end.
Proof.
  intros H. unfold float_ok.
  rewrite (plain_strip s H), (plain_no_sign s H).
  rewrite !(plain_not_word s _ H) by reflexivity. reflexivity.
Qed.

Lemma lstrip_plain p s :
  forallb digit_or_dot s = true -> forallb digit_or_dot (lstrip_by p s) = true.
Proof.
  intros H. destruct (lstrip_split p s) as (pre & E & _).
  rewrite E, forallb_app in H. apply andb_true_iff in H. tauto.
Qed.

(** What [float] accepts among the strings of digits and dots: digits, or
    digits around one dot, with a digit somewhere. *)
Lemma float_shape s :
  forallb digit_or_dot s = true -> float_ok s = true ->
  exists a b,
    forallb is_digit a = true /\ forallb is_digit b = true
    /\ ((s = a /\ a <> []) \/ (s = a ++ ch "." :: b /\ (a <> [] \/ b <> []))).
Proof.
  intros Hs Hf. rewrite (plain_float_ok s Hs) in Hf.
  destruct s as [|c r]; [discriminate|].
  cbn [forallb] in Hs. apply andb_true_iff in Hs. destruct Hs as [Hc Hr].
  unfold digitpart in Hf at 1. destruct (is_digit c) eqn:D.
  - rewrite (plain_digitpart_rest r Hr) in Hf.
    destruct (lstrip_split is_digit r) as (pre & E & Hpre).
    pose proof (lstrip_plain is_digit r Hr) as Ht.
    destruct (lstrip_by is_digit r) as [|x r1].
    + exists (c :: pre), []. rewrite app_nil_r in E. subst r.
      split; [simpl; now rewrite D|]. split; [reflexivity|].
      left. split; [reflexivity|discriminate].
    + destruct (x =? ch ".")%N eqn:X.
      * apply N.eqb_eq in X. subst x.
        cbn [forallb] in Ht. apply andb_true_iff in Ht. destruct Ht as [_ Hr1].
        destruct r1 as [|d r2].
        -- exists (c :: pre), []. split; [simpl; now rewrite D|]. split; [reflexivity|].
           right. split; [simpl; now rewrite E|left; discriminate].
        -- cbn [forallb] in Hr1. apply andb_true_iff in Hr1. destruct Hr1 as [Hd Hr2].
           unfold digitpart in Hf. destruct (is_digit d) eqn:Dd.
           ++ rewrite (plain_digitpart_rest r2 Hr2) in Hf.
              apply plain_exponent in Hf; [|now apply lstrip_plain].
              apply lstrip_nil in Hf.
              exists (c :: pre), (d :: r2).
              split; [simpl; now rewrite D|]. split; [simpl; now rewrite Dd|].
              right. split; [simpl; now rewrite E|left; discriminate].
           ++ apply plain_exponent in Hf; [discriminate|].
              cbn [forallb]. now rewrite Hd.
      * apply plain_exponent in Hf; [discriminate|exact Ht].
  - destruct (digit_or_dot_plain c Hc) as (_ & _ & _ & _ & _ & _ & _ & Hdot).
    specialize (Hdot D). rewrite Hdot in Hf. apply N.eqb_eq in Hdot. subst c.
    destruct r as [|d r']; [discriminate|].
    cbn [forallb] in Hr. apply andb_true_iff in Hr. destruct Hr as [Hd Hr'].
    unfold digitpart in Hf. destruct (is_digit d) eqn:Dd; [|discriminate].
    rewrite (plain_digitpart_rest r' Hr') in Hf.
    apply plain_exponent in Hf; [|now apply lstrip_plain].
    apply lstrip_nil in Hf.
    exists [], (d :: r'). split; [reflexivity|]. split; [simpl; now rewrite Dd|].
    right. split; [reflexivity|right; discriminate].
Qed.

Lemma digits_plain l : forallb is_digit l = true -> forallb digit_or_dot l = true.
Proof. apply forallb_impl. apply digit_is_plain. Qed.

Lemma digits_no_dot l :
  forallb is_digit l = true -> count_occ N.eq_dec l (ch ".") = 0%nat.
Proof.
  induction l as [|c l IH]; simpl; [reflexivity|].
  intros H. apply andb_true_iff in H. destruct H as [Hc Hl].
  destruct (N.eq_dec c 46) as [->|_]; [discriminate|]. auto.
Qed.

Lemma digits_exist l :
  forallb is_digit l = true -> l <> [] -> existsb is_digit l = true.
Proof.
  destruct l as [|c l]; [congruence|]. simpl.
  intros H _. apply andb_true_iff in H. destruct H as [-> _]. reflexivity.
Qed.

Lemma shape_canonical a b :
  forallb is_digit a = true -> forallb is_digit b = true ->
  (a <> [] -> is_canonical a = true)
  /\ (a <> [] \/ b <> [] -> is_canonical (a ++ ch "." :: b) = true).
Proof.
  intros Ha Hb. unfold is_canonical. split.
  - intros Hne. rewrite (digits_plain a Ha), (digits_no_dot a Ha), (digits_exist a Ha Hne).
    reflexivity.
  - intros Hne.
    rewrite forallb_app, count_occ_app, existsb_app. cbn [forallb count_occ existsb].
    rewrite (digits_plain a Ha), (digits_plain b Hb), (digits_no_dot a Ha), (digits_no_dot b Hb).
    destruct (N.eq_dec (ch ".") (ch ".")) as [_|Hn]; [|now destruct Hn].
    change (digit_or_dot (ch ".")) with true. change (is_digit (ch ".")) with false.
    simpl. destruct Hne as [Hne|Hne].
    + now rewrite (digits_exist a Ha Hne).
    + rewrite (digits_exist b Hb Hne). apply orb_true_r.
Qed.

(** What the normalizer returns after a successful [float] is canonical. *)
Lemma float_ok_canonical s :
  forallb digit_or_dot s = true -> float_ok s = true -> is_canonical s = true.
Proof.
  intros Hs Hf. destruct (float_shape s Hs Hf) as (a & b & Ha & Hb & H).
  destruct (shape_canonical a b Ha Hb) as [H1 H2].
  destruct H as [[-> Hne]|[-> Hne]]; auto.
Qed.

(** C2, as stated, fails at the empty string, for which the normalizer
    returns [None], neither a canonical string nor the trimmed input. *)
Lemma C2_counterexample :
  _normalize_amount (u "") = None
  /\ ~ (exists s, _normalize_amount (u "") = Some s
                  /\ (is_canonical s = true \/ s = strip (u ""))).
Proof.
  split; [reflexivity|]. intros (s & H & _). discriminate.
Qed.

(** C2, amended: for every non-empty input the normalizer returns a
    canonical numeric string or the trimmed input, and the empty input gives
    [None]; the five test cases hold. *)
Theorem C2_normalize_amount :
  (forall c raw,
      exists s, _normalize_amount (c :: raw) = Some s
                /\ (is_canonical s = true \/ s = strip (c :: raw)))
  /\ _normalize_amount [] = None
  /\ _normalize_amount (u "1.234,56") = Some (u "1234.56")
  /\ _normalize_amount (u "1,234.56") = Some (u "1234.56")
  /\ _normalize_amount (u "1234,56") = Some (u "1234.56")
  /\ _normalize_amount (u "1 234.56") = Some (u "1234.56")
  /\ _normalize_amount (u "abc") = Some (u "abc").
Proof.
  split; [|repeat split; vm_compute; reflexivity].
  intros c raw. unfold _normalize_amount.
  match goal with
  | |- context [float_ok ?t] => destruct (float_ok t) eqn:F
  end.
  - eexists. split; [reflexivity|]. left.
    rewrite non_numeric_removed in *. apply float_ok_canonical; [|exact F].
    apply filter_all.
  - eexists. split; [reflexivity|]. now right.
Qed.

(** * Idempotence on canonical amounts *)

Lemma plain_forall (P : N -> Prop) s :
  (forall c, digit_or_dot c = true -> P c) ->
  forallb digit_or_dot s = true -> Forall P s.
Proof.
  intros HP H. apply Forall_forall. intros c Hc.
  rewrite forallb_forall in H. auto.
Qed.

Lemma plain_no_space s :
  forallb digit_or_dot s = true -> Forall (fun c => ~ is_space c = true) s.
Proof.
  apply plain_forall. intros c Hc.
  destruct (digit_or_dot_plain c Hc) as (-> & _). discriminate.
Qed.

Lemma plain_no_comma s :
  forallb digit_or_dot s = true -> Forall (fun c => ~ c = ch ",") s.
Proof.
  apply plain_forall. intros c Hc ->. discriminate.
Qed.

(** A string of digits and dots that [float] accepts is returned as it is. *)
Lemma normalize_plain x :
  x <> [] -> forallb digit_or_dot x = true -> float_ok x = true ->
  _normalize_amount x = Some x.
Proof.
  intros Hne Hx Hf. destruct x as [|d r]; [congruence|].
  unfold _normalize_amount. rewrite (plain_strip _ Hx).
  assert (Hgap : sub no_flags re_digit_gap [] (d :: r) = d :: r).
  { unfold sub. apply (sub_at_id no_flags (fun c => is_space c = true)).
    - apply needs_space. vm_compute. reflexivity.
    - now apply plain_no_space. }
  rewrite Hgap.
  assert (Heu : rmatch no_flags re_european (d :: r) = None).
  { unfold rmatch. apply (match_at_none no_flags (fun c => c = ch ",")).
    - apply needs_char. vm_compute. reflexivity.
    - now apply plain_no_comma. }
  assert (Hus : rmatch no_flags re_us (d :: r) = None).
  { unfold rmatch. apply (match_at_none no_flags (fun c => c = ch ",")).
    - apply needs_char. vm_compute. reflexivity.
    - now apply plain_no_comma. }
  rewrite Heu, Hus. cbn [is_match].
  assert (Hc : contains (u ",") (d :: r) = false).
  { destruct (contains (u ",") (d :: r)) eqn:E; [|reflexivity].
    apply (contains_head (ch ",") []) in E.
    pose proof (plain_no_comma _ Hx) as Hn. rewrite Forall_forall in Hn.
    now destruct (Hn _ E). }
  rewrite Hc. cbn [andb].
  rewrite non_numeric_removed, (filter_id _ _ Hx), Hf. reflexivity.
Qed.

Lemma lstrip_app_stop p pre c t :
  forallb p pre = true -> p c = false -> lstrip_by p (pre ++ c :: t) = c :: t.
Proof.
  intros Hp Hc. induction pre as [|x pre IH]; simpl.
  - now rewrite Hc.
  - simpl in Hp. apply andb_true_iff in Hp. destruct Hp as [-> Hp]. auto.
Qed.

(** [float] accepts digits, a dot and two digits. *)
Lemma float_ok_amount ds a b :
  ds <> [] -> forallb is_digit ds = true -> is_digit a = true -> is_digit b = true ->
  forallb digit_or_dot (ds ++ [ch "."; a; b]) = true
  /\ float_ok (ds ++ [ch "."; a; b]) = true.
Proof.
  intros Hne Hds Ha Hb.
  assert (Hx : forallb digit_or_dot (ds ++ [ch "."; a; b]) = true).
  { rewrite forallb_app, (digits_plain ds Hds). cbn [forallb andb].
    rewrite (digit_is_plain a Ha), (digit_is_plain b Hb). reflexivity. }
  split; [exact Hx|]. rewrite (plain_float_ok _ Hx).
  destruct ds as [|d ds]; [congruence|].
  cbn [forallb] in Hds. apply andb_true_iff in Hds. destruct Hds as [Hd Hds].
  cbn [app digitpart]. rewrite Hd.
  rewrite plain_digitpart_rest.
  - rewrite (lstrip_app_stop is_digit ds (ch ".") [a; b] Hds eq_refl).
    rewrite N.eqb_refl. cbn [digitpart digitpart_rest]. rewrite Ha, Hb. reflexivity.
  - rewrite forallb_app, (digits_plain ds Hds). cbn [forallb andb].
    rewrite (digit_is_plain a Ha), (digit_is_plain b Hb). reflexivity.
Qed.

(** C3: a canonical amount, one or more digits, a dot and exactly two
    digits, is returned unchanged by the normalizer. *)
Theorem C3_idempotent_on_canonical :
  forall x, canonical_amount x -> _normalize_amount x = Some x.
Proof.
  intros x (ds & a & b & Hne & Hds & Ha & Hb & ->).
  destruct (float_ok_amount ds a b Hne Hds Ha Hb) as [Hx Hf].
  apply normalize_plain; auto.
  destruct ds; [congruence|discriminate].
Qed.

(** C3 at 12500.00. *)
Lemma C3_witness : _normalize_amount (u "12500.00") = Some (u "12500.00").
Proof.
  apply C3_idempotent_on_canonical.
  exists (u "12500"), (ch "0"), (ch "0").
  repeat split; try reflexivity. discriminate.
Defined.

(** * The patterns of the source *)

(** Every constant pattern of the source is in the fragment that the
    pattern parser reads. *)
Example source_patterns_compile :
  forallb (fun p => match compile (u p) with Some _ => true | None => false end)
    ([ "(?<=\d)\s+(?=\d)";
       "^\d{1,3}(\.\d{3})+,\d{2}$";
       "^\d{1,3}(,\d{3})+\.\d{2}$";
       "[^\d.]";
       "(?:Invoice|Inv|Faktura)[\s.#:]*(?:No\.?|Number|Nr\.?|#)?\s*[:\s]?\s*([A-Z0-9][\w\-/]{2,20})";
       "(?:Invoice|Faktura)\s*[:\s]+\s*([A-Z0-9][\w\-/]{2,20})";
       "(?:Inv|INV)[.\s#-]*(\d[\w\-/]{2,15})";
       "(?:Document|Doc)[\s.#:]*(?:No\.?|Number|Nr\.?)?\s*[:\s]?\s*([A-Z0-9][\w\-/]{2,20})";
       "\s*[:\s]\s*"
         +s+ "(?:[$€£¥₹]|kr\.?|NOK|SEK|DKK|USD|EUR|GBP|CHF)?\s*"
         +s+ "([\d]{1,3}(?:[,.\s]?\d{3})*(?:[.,]\d{1,2})?)";
       "(?:[$€£]|kr\.?|NOK|USD|EUR)?\s*([\d]{1,3}(?:[,.\s]?\d{3})*(?:[.,]\d{1,2}))";
       "\s*[:\s]\s*(.{2,60}?)(?:\n|$)";
       "\s*[:\s]\s*(.+?)(?:\n|$)";
       "\s*(AS|A/S|Ltd|LLC|Inc|GmbH|AB|Oy|ApS)\s*$";
       "^\d";
       "((?:\d+\s+\w+\s+(?:Street|St|Ave|Road|Rd|Blvd|Way|Drive|Dr|Lane|Ln|vei|veien|gate|gaten|plass)"
         +s+ "|[\w\s]+\d+[A-Za-z]?)"
         +s+ "[\s,]*(?:\d{4,5}\s+\w+)?)";
       "\s*[:\s]?\s*(\d[\d\s\-]{5,15}\d)";
       "(?:vat|mva|tax|gst|moms)\s*(?:rate)?\s*[:\s]?\s*(\d{1,2}(?:[.,]\d{1,2})?)\s*%";
       "(\d{1,2}(?:[.,]\d{1,2})?)\s*%\s*(?:vat|mva|tax|gst|moms)";
       "(?:payment\s+terms?|betalingsbetingelser?|betalingsvilkår)\s*[:\s]\s*(.{5,80}?)(?:\n|$)";
       "(net\s+\d+\s*(?:days)?)";
       "(?:due\s+in|betaling\s+innen)\s+(\d+\s*(?:days|dager|calendar days))";
       "((?:30|45|60|90)\s*(?:days|dager)\s*(?:net|netto)?)";
       "(?:IBAN|iban)\s*[:\s]?\s*([A-Z]{2}\d{2}[\s]?[\dA-Z\s]{10,30})";
       "(?:Account|Konto|Kontonr)\s*[:\s]?\s*([\d\s.]{8,20})";
       "(?:SWIFT|BIC)\s*[:\s]?\s*([A-Z]{6}[A-Z0-9]{2,5})";
       "(?:between|mellom)\s+(.+?)\s+(?:and|og)\s+(.+?)(?:\.|,|\(|\n)";
       "(?:party\s*[AB12]|part\s*[12])\s*[:\s]\s*(.+?)(?:\n|$)";
       "(?:\d+\.?\s*)?";
       "[:\s.]*\n(.{20,300}?)(?:\n\n|\n\d+\.)";
       "(?:period|periode|for the year|for året)\s*[:\s]?\s*(.{5,50}?)(?:\n|$)";
       "(\d{4}[-/]\d{1,2}[-/]\d{1,2})\s*[-–to]+\s*(\d{4}[-/]\d{1,2}[-/]\d{1,2})";
       "(.{3,50}?)\s{2,}([\d,.\s]+\d)\s*$";
       "(?:[$€£]|kr\.?|NOK|USD|EUR)\s*[\d,.\s]+\d";
       "[\w.+-]+@[\w.-]+\.\w{2,}";
       "(?:\+\d{1,3}[\s-]?)?\(?\d{2,4}\)?[\s.-]?\d{3,4}[\s.-]?\d{3,4}" ]%string
     ++ DATE_PATTERNS
     ++ map (fun date_pat => "\s*[:\s]\s*" +s+ date_pat)%string DATE_PATTERNS
     ++ map (fun code => "\b" +s+ code +s+ "\b")%string
            ["NOK"; "USD"; "EUR"; "GBP"; "SEK"; "DKK"; "CHF"]%string)
  = true
  /\ re_url <> CSet false [].
Proof. vm_compute. split; [reflexivity|discriminate]. Qed.

(** * The end-to-end scenarios of the specification *)

(** Scenario 1: invoice number, normalized total and detected currency. *)
Example scenario_1 :
  dict_get (data (extract_invoice_data_ml scenario_invoice 0.25)) (u "invoice_number")
  = Some (VStr (u "INV-2024-001"))
  /\ dict_get (data (extract_invoice_data_ml scenario_invoice 0.25)) (u "total_amount")
     = Some (VStr (u "12500.00"))
  /\ dict_get (data (extract_invoice_data_ml scenario_invoice 0.25)) (u "currency")
     = Some (VStr (u "NOK")).
Proof. vm_compute. repeat split; reflexivity. Qed.

(** Scenario 2: the line item of the table; the unit-price column also
    feeds the unit role. *)
Example scenario_2 :
  dict_get (data (extract_invoice_data_ml scenario_invoice 0.25)) (u "line_items")
  = Some (VList [VDict [ (u "line_no", VInt 1);
                         (u "description", VStr (u "Consulting"));
                         (u "quantity", VStr (u "10"));
                         (u "unit", VStr (u "1000.00"));
                         (u "unit_price", VStr (u "1000.00"));
                         (u "amount", VStr (u "10000.00")) ]]).
Proof. vm_compute. reflexivity. Qed.

(** Scenario 3: a short document without tables, through the generic
    extractor. *)
Example scenario_3 :
  confidence (extract_generic_data_ml contract_between 0.25) = 0.50.
Proof. vm_compute. reflexivity. Qed.

(** Scenario 4: the parties of a contract. *)
Example scenario_4 :
  _extract_contract_parties
    (u "This Agreement is entered into between Acme AS and Beta AS.")
  = ([u "Acme AS"; u "Beta AS"], 0.90).
Proof. vm_compute. reflexivity. Qed.

(** Scenario 5: a document without any text, as an invoice. *)
Example scenario_5 :
  success (extract_invoice_data_ml (Ret [scanned_page]) 0.25) = false
  /\ confidence (extract_invoice_data_ml (Ret [scanned_page]) 0.25) = 0.0
  /\ error (extract_invoice_data_ml (Ret [scanned_page]) 0.25)
     = Some (u "No text could be extracted from this PDF").
Proof. vm_compute. repeat split; reflexivity. Qed.

(** * Further properties of the engine *)

(** ** Stripped strings *)

Lemma lstrip_head p s :
  match lstrip_by p s with c :: _ => p c = false | [] => True end.
Proof.
  induction s as [|c s IH]; simpl; [exact I|].
  destruct (p c) eqn:E; [exact IH|exact E].
Qed.

Lemma lstrip_keeps_last p l c :
  p c = false -> exists l', lstrip_by p (l ++ [c]) = l' ++ [c].
Proof.
  intros Hc. induction l as [|x l IH]; simpl.
  - rewrite Hc. now exists [].
  - destruct (p x); [exact IH|]. now exists (x :: l).
Qed.

Lemma rstrip_keeps_head p c r :
  p c = false -> exists r', rstrip_by p (c :: r) = c :: r'.
Proof.
  intros Hc. unfold rstrip_by. simpl.
  destruct (lstrip_keeps_last p (rev r) c Hc) as (l' & ->).
  rewrite rev_app_distr. simpl. now exists (rev l').
Qed.

Lemma strip_stripped s : stripped (strip s).
Proof.
  unfold stripped, strip. split.
  - pose proof (lstrip_head is_space s) as H.
    destruct (lstrip_by is_space s) as [|c r]; [exact I|].
    destruct (rstrip_keeps_head is_space c r H) as (r' & ->). exact H.
  - unfold rstrip_by. rewrite rev_involutive. apply lstrip_head.
Qed.

Lemma stripped_strip s : stripped s -> strip s = s.
Proof.
  intros [H1 H2]. unfold strip, rstrip_by.
  assert (E1 : lstrip_by is_space s = s).
  { destruct s as [|c r]; [reflexivity|]. simpl. now rewrite H1. }
  rewrite E1.
  assert (E2 : lstrip_by is_space (rev s) = rev s).
  { destruct (rev s) as [|c r]; [reflexivity|]. simpl. now rewrite H2. }
  rewrite E2. apply rev_involutive.
Qed.

(** [s.strip().strip() == s.strip()] *)
Lemma strip_idempotent s : strip (strip s) = strip s.
Proof. apply stripped_strip, strip_stripped. Qed.

Lemma plain_stripped s : forallb digit_or_dot s = true -> stripped s.
Proof.
  intros H. rewrite <- (plain_strip s H). apply strip_stripped.
Qed.

(** ** The amount normalizer, again *)

(** The two ways out of the normalizer. *)
Lemma normalize_cases c raw :
  (exists s, _normalize_amount (c :: raw) = Some s
             /\ forallb digit_or_dot s = true /\ float_ok s = true)
  \/ (_normalize_amount (c :: raw) = Some (strip (c :: raw))
      /\ forall raw', strip raw' = strip (c :: raw) -> raw' <> [] ->
                      _normalize_amount raw' = Some (strip (c :: raw))).
Proof.
  unfold _normalize_amount.
  match goal with
  | |- context [float_ok ?t] => destruct (float_ok t) eqn:F
  end.
  - left. eexists. split; [reflexivity|]. split; [|exact F].
    rewrite non_numeric_removed. apply filter_all.
  - right. split; [reflexivity|]. intros raw' E Hne.
    destruct raw' as [|c' r']; [congruence|].
    rewrite E, F. reflexivity.
Qed.

(** X1: normalizing is idempotent: a non-empty result of the normalizer
    is returned unchanged when it is normalized again. *)
Theorem X1_normalize_idempotent :
  forall raw s,
    _normalize_amount raw = Some s -> s <> [] -> _normalize_amount s = Some s.
Proof.
  intros raw s H Hne. destruct raw as [|c raw]; [discriminate|].
  destruct (normalize_cases c raw) as [(s' & E & Hs & Hf)|[E Hagain]].
  - rewrite E in H. inversion H; subst s'. now apply normalize_plain.
  - rewrite E in H. inversion H; subst s.
    apply Hagain; [apply strip_idempotent|exact Hne].
Qed.

Lemma X1_witness : _normalize_amount (u "12500.00") = Some (u "12500.00").
Proof.
  apply (X1_normalize_idempotent (u "kr 12 500,00")); [reflexivity|discriminate].
Defined.

(** X2: what the normalizer returns has no leading and no trailing
    whitespace. *)
Theorem X2_normalize_stripped :
  forall raw s, _normalize_amount raw = Some s -> stripped s.
Proof.
  intros raw s H. destruct raw as [|c raw]; [discriminate|].
  destruct (normalize_cases c raw) as [(s' & E & Hs & Hf)|[E _]];
    rewrite E in H; inversion H; subst.
  - now apply plain_stripped.
  - apply strip_stripped.
Qed.

Lemma X2_witness : stripped (u "abc def").
Proof.
  apply (X2_normalize_stripped (u "  abc def ")). reflexivity.
Defined.

(** ** Bounds of the weighted confidence *)

Lemma sums_between lo hi key_fields fcs :
  Forall (fun fc : str * Q => lo <= snd fc /\ snd fc <= hi) fcs ->
  lo * Qsum (map (fun fc => weight key_fields (fst fc)) fcs)
  <= Qsum (map (fun fc => snd fc * weight key_fields (fst fc)) fcs)
  /\ Qsum (map (fun fc => snd fc * weight key_fields (fst fc)) fcs)
     <= hi * Qsum (map (fun fc => weight key_fields (fst fc)) fcs).
Proof.
  induction 1 as [|[field conf] fcs [Hlo Hhi] _ [IH1 IH2]]; simpl.
  - split; rewrite Qmult_0_r; apply Qle_refl.
  - simpl in Hlo, Hhi.
    pose proof (Qlt_le_weak _ _ (weight_pos key_fields field)) as Hw.
    split.
    + rewrite Qmult_plus_distr_r. apply Qplus_le_compat; [|exact IH1].
      now apply Qmult_le_compat_r.
    + rewrite Qmult_plus_distr_r. apply Qplus_le_compat; [|exact IH2].
      now apply Qmult_le_compat_r.
Qed.

Lemma weighted_between lo hi fc fcs key_fields :
  Forall (fun fc : str * Q => lo <= snd fc /\ snd fc <= hi) (fc :: fcs) ->
  lo <= _calculate_weighted_confidence (fc :: fcs) key_fields
  /\ _calculate_weighted_confidence (fc :: fcs) key_fields <= hi.
Proof.
  intros H.
  rewrite calculate_is_mean. unfold weighted_mean.
  destruct (sums_between lo hi key_fields (fc :: fcs) H) as [H1 H2].
  pose proof (weights_pos key_fields fc fcs) as Hpos.
  split.
  - apply Qle_shift_div_l; assumption.
  - apply Qle_shift_div_r; assumption.
Qed.



(** ** Confidences lie in the unit interval *)

Lemma unit_const c : Qle_bool 0 c && Qle_bool c 1 = true -> in_unit c.
Proof.
  intros H. apply andb_true_iff in H. destruct H as [H1 H2].
  split; now apply Qle_bool_iff.
Qed.

Ltac unit_hit := simpl; apply unit_const; reflexivity.

(** A search loop keeps every property that its hits and its default have. *)
Lemma loop_keeps {A B} (P : B -> Prop) (f : A -> option B) l (default : B) :
  (forall x y, In x l -> f x = Some y -> P y) -> P default ->
  P (match first_hit f l with Some r => r | None => default end).
Proof.
  intros H Hd. destruct (first_hit f l) as [y|] eqn:E; [|exact Hd].
  apply first_hit_some in E. destruct E as (x & Hin & Hf). eauto.
Qed.

Lemma invoice_number_unit text : unit_conf (_extract_invoice_number text).
Proof.
  unfold _extract_invoice_number. apply loop_keeps; [|unit_hit].
  intros pc y Hin H. take_hit H. simpl in Hin.
  repeat (destruct Hin as [<-|Hin]; [unit_hit|]). destruct Hin.
Qed.

Lemma labeled_date_unit text labels : unit_conf (_extract_labeled_date text labels).
Proof.
  unfold _extract_labeled_date.
  destruct (first_hit _ labels) as [y|] eqn:E.
  - apply first_hit_some in E. destruct E as (label & _ & E).
    apply first_hit_some in E. destruct E as (date_pat & _ & E).
    take_hit E. unit_hit.
  - apply loop_keeps; [|unit_hit]. intros label y _ H.
    destruct (find (lower text) (lower label)); [|discriminate].
    apply first_hit_some in H. destruct H as (date_pat & _ & H).
    take_hit H. unit_hit.
Qed.

Lemma labeled_amount_unit text labels : unit_conf (_extract_labeled_amount text labels).
Proof.
  unfold _extract_labeled_amount.
  destruct (first_hit _ labels) as [y|] eqn:E.
  - apply first_hit_some in E. destruct E as (label & _ & E).
    take_hit E. unit_hit.
  - apply loop_keeps; [|unit_hit]. intros label y _ H.
    take_hit H. unit_hit.
Qed.

Lemma labeled_value_unit text labels : unit_conf (_extract_labeled_value text labels).
Proof.
  unfold _extract_labeled_value. apply loop_keeps; [|unit_hit].
  intros label y _ H. take_hit H. unit_hit.
Qed.

Lemma entity_name_unit text labels : unit_conf (_extract_entity_name text labels).
Proof.
  unfold _extract_entity_name.
  destruct (first_hit _ labels) as [y|] eqn:E.
  - apply first_hit_some in E. destruct E as (label & _ & E).
    take_hit E. unit_hit.
  - destruct (split_on nl text); [unit_hit|].
    destruct (2 <? _)%nat; [|unit_hit].
    destruct (_ && _); unit_hit.
Qed.

Lemma address_unit text entity_type : unit_conf (_extract_address text entity_type).
Proof. unfold _extract_address. destruct (search _ _ _); unit_hit. Qed.

Lemma tax_id_unit text labels : unit_conf (_extract_tax_id text labels).
Proof.
  unfold _extract_tax_id. apply loop_keeps; [|unit_hit].
  intros label y _ H. take_hit H. unit_hit.
Qed.

Lemma tax_rate_unit text : unit_conf (_extract_tax_rate text).
Proof.
  unfold _extract_tax_rate. apply loop_keeps; [|unit_hit].
  intros p y _ H. take_hit H. unit_hit.
Qed.

Lemma first_ranked_unit patterns text :
  Forall (fun pc : String.string * Q => in_unit (snd pc)) patterns ->
  unit_conf (first_ranked patterns text).
Proof.
  intros Hp. unfold first_ranked. apply loop_keeps; [|unit_hit].
  intros pc y Hin H. take_hit H. rewrite Forall_forall in Hp. now apply Hp.
Qed.

Lemma payment_terms_unit text : unit_conf (_extract_payment_terms text).
Proof.
  unfold _extract_payment_terms. apply first_ranked_unit.
  repeat constructor; unit_hit.
Qed.

Lemma bank_info_unit text : unit_conf (_extract_bank_info text).
Proof.
  unfold _extract_bank_info. apply first_ranked_unit.
  repeat constructor; unit_hit.
Qed.

Lemma currency_unit text : unit_conf (_detect_currency text).
Proof.
  unfold _detect_currency.
  match goal with
  | |- unit_conf (match ?e with _ => _ end) => destruct e as [|[k n] r]
  end; unit_hit.
Qed.

Lemma clause_unit text labels : unit_conf (_extract_clause text labels).
Proof.
  unfold _extract_clause. apply loop_keeps; [|unit_hit].
  intros label y _ H. take_hit H. unit_hit.
Qed.

Lemma parties_unit text : unit_conf (_extract_contract_parties text).
Proof.
  unfold _extract_contract_parties. destruct (search _ _ _); [unit_hit|].
  destruct (findall _ _ _); unit_hit.
Qed.

Lemma contract_type_unit text : unit_conf (_detect_contract_type text).
Proof. unfold _detect_contract_type. destruct (first_hit _ _); unit_hit. Qed.

Lemma dict_set_forall {V} (P : V -> Prop) (d : dict V) k v :
  Forall P (map snd d) -> P v -> Forall P (map snd (dict_set d k v)).
Proof.
  intros Hd Hv. induction d as [|[k' v'] d IH]; simpl.
  - repeat constructor. exact Hv.
  - inversion Hd; subst. destruct (str_eqb k k'); simpl; constructor; auto.
Qed.

Lemma put_unit k r acc :
  Forall in_unit (map snd (snd acc)) -> unit_conf r ->
  Forall in_unit (map snd (snd (put k r acc))).
Proof. intros Ha Hr. unfold put. simpl. now apply dict_set_forall. Qed.

Ltac unit_fields :=
  repeat (apply put_unit;
          [|first [ apply invoice_number_unit | apply labeled_date_unit
                  | apply labeled_amount_unit | apply labeled_value_unit
                  | apply entity_name_unit | apply address_unit
                  | apply tax_id_unit | apply tax_rate_unit
                  | apply payment_terms_unit | apply bank_info_unit
                  | apply currency_unit | apply clause_unit ]]).

Lemma invoice_fields_unit text :
  Forall in_unit (map snd (snd (invoice_fields text))).
Proof. unfold invoice_fields. cbv zeta. unit_fields. constructor. Qed.

Lemma contract_fields_unit text :
  Forall in_unit (map snd (snd (contract_fields text))).
Proof.
  unfold contract_fields. cbv zeta. unit_fields.
  apply put_unit.
  - simpl. constructor; [apply parties_unit|constructor].
  - apply contract_type_unit.
Qed.

Lemma round2_unit x : in_unit x -> in_unit (round2 x).
Proof.
  intros [H0 H1].
  assert (Hy0 : 0 <= x * 100).
  { apply Qmult_le_0_compat; [assumption|discriminate]. }
  assert (Hy1 : x * 100 <= inject_Z 100).
  { setoid_replace (inject_Z 100) with (1 * 100) by reflexivity.
    apply Qmult_le_compat_r; [assumption|discriminate]. }
  assert (Hf0 : (0 <= Qfloor (x * 100))%Z).
  { change 0%Z with (Qfloor (inject_Z 0)). now apply Qfloor_resp_le. }
  assert (Hf1 : (Qfloor (x * 100) <= 100)%Z).
  { rewrite <- (Qfloor_Z 100). now apply Qfloor_resp_le. }
  assert (Hn : forall n, (0 <= n <= 100)%Z -> in_unit (inject_Z n / 100)).
  { intros n Hn. split.
    - apply Qle_trans with (y := inject_Z 0 / 100); [discriminate|].
      apply hundredths_le. lia.
    - apply Qle_trans with (y := inject_Z 100 / 100); [|discriminate].
      apply hundredths_le. lia. }
  unfold round2. cbv zeta.
  destruct (Qltb (x * 100 - inject_Z (Qfloor (x * 100))) 0.5) eqn:E; [apply Hn; lia|].
  assert (Hlt : (Qfloor (x * 100) < 100)%Z).
  { destruct (Z.eq_dec (Qfloor (x * 100)) 100) as [E100|]; [|lia].
    exfalso. rewrite E100 in E.
    assert (Hd : x * 100 - inject_Z 100 < 0.5).
    { apply Qle_lt_trans with (y := 0); [|reflexivity].
      apply (Qplus_le_l _ _ (inject_Z 100)).
      setoid_replace (x * 100 - inject_Z 100 + inject_Z 100) with (x * 100) by ring.
      setoid_replace (0 + inject_Z 100) with (inject_Z 100) by ring.
      exact Hy1. }
    apply Qltb_true in Hd. congruence. }
  destruct (Qltb 0.5 _); [apply Hn; lia|].
  destruct (Z.even _); apply Hn; lia.
Qed.

Lemma overall_unit fcs key_fields :
  Forall in_unit (map snd fcs) ->
  in_unit (_calculate_weighted_confidence fcs key_fields).
Proof.
  intros H. destruct fcs as [|fc fcs]; [unit_hit|].
  apply (weighted_between 0 1). rewrite Forall_map in H. exact H.
Qed.

Lemma round_confidences_unit fcs :
  Forall in_unit (map snd fcs) -> Forall in_unit (map snd (round_confidences fcs)).
Proof.
  unfold round_confidences. rewrite !Forall_map. apply Forall_impl.
  intros a. simpl. apply round2_unit.
Qed.

(** X4: every result of the four extractors reports a confidence between
    0 and 1, and so is every entry of its field confidences. *)
Theorem X4_confidence_in_unit_interval :
  forall pdf elapsed r,
    In r [ extract_invoice_data_ml pdf elapsed;
           extract_contract_data_ml pdf elapsed;
           extract_financial_statement_ml pdf elapsed;
           extract_generic_data_ml pdf elapsed ] ->
    in_unit (confidence r)
    /\ Forall in_unit (map snd (field_confidences r)).
Proof.
  intros pdf elapsed r [<-|[<-|[<-|[<-|[]]]]].
  - unfold extract_invoice_data_ml, bind.
    destruct pdf as [msg|pages]; [split; [unit_hit|constructor]|].
    destruct (foldM read_invoice_page _ _) as [msg|[all_text all_tables]];
      [split; [unit_hit|constructor]|].
    destruct (strip all_text); [split; [unit_hit|constructor]|].
    pose proof (invoice_fields_unit all_text) as H.
    destruct (invoice_fields all_text) as [fields fcs]. simpl in *. split.
    + apply round2_unit. now apply overall_unit.
    + now apply round_confidences_unit.
  - unfold extract_contract_data_ml, bind.
    destruct pdf as [msg|pages]; [split; [unit_hit|constructor]|].
    destruct (foldM read_text_page _ _) as [msg|all_text];
      [split; [unit_hit|constructor]|].
    destruct (strip all_text); [split; [unit_hit|constructor]|].
    pose proof (contract_fields_unit all_text) as H.
    destruct (contract_fields all_text) as [fields fcs]. simpl in *. split.
    + apply round2_unit. now apply overall_unit.
    + now apply round_confidences_unit.
  - unfold extract_financial_statement_ml, bind.
    destruct pdf as [msg|pages]; [split; [unit_hit|constructor]|].
    destruct (foldM read_statement_page _ _) as [msg|[all_text all_tables]];
      [split; [unit_hit|constructor]|].
    destruct all_tables; [|split; [unit_hit|constructor]].
    destruct (_extract_statement_from_text all_text); split; try unit_hit; constructor.
  - unfold extract_generic_data_ml, bind.
    destruct pdf as [msg|pages]; [split; [unit_hit|constructor]|].
    destruct (foldM read_generic_page _ _) as [msg|[[all_text text_blocks] tables]];
      [split; [unit_hit|constructor]|].
    split; [|constructor]. simpl. unfold generic_confidence.
    destruct (length all_text <? 100)%nat; [unit_hit|].
    destruct tables; unit_hit.
Qed.

Lemma X4_witness :
  in_unit (confidence (extract_invoice_data_ml scenario_invoice 0.25)).
Proof.
  apply (X4_confidence_in_unit_interval scenario_invoice 0.25). simpl. tauto.
Defined.

(** * The shape of the results *)

Lemma dict_mem_keys {V} (d : dict V) k :
  dict_mem k d = existsb (str_eqb k) (map fst d).
Proof.
  unfold dict_mem. induction d as [|[k' v'] d IH]; simpl; [reflexivity|].
  destruct (str_eqb k k'); [reflexivity|exact IH].
Qed.

Lemma dict_set_add_key {V} (d : dict V) k v :
  map fst (dict_set d k v) = add_key (map fst d) k.
Proof. rewrite dict_set_keys, dict_mem_keys. reflexivity. Qed.

Lemma put_keys k r acc :
  map fst (fst (put k r acc)) = add_key (map fst (fst acc)) (u k)
  /\ map fst (snd (put k r acc)) = add_key (map fst (snd acc)) (u k).
Proof. unfold put. simpl. now rewrite !dict_set_add_key. Qed.

Lemma put_keys_fst k r acc :
  map fst (fst (put k r acc)) = add_key (map fst (fst acc)) (u k).
Proof. apply put_keys. Qed.

Lemma put_keys_snd k r acc :
  map fst (snd (put k r acc)) = add_key (map fst (snd acc)) (u k).
Proof. apply put_keys. Qed.

Lemma invoice_fields_keys text :
  map fst (fst (invoice_fields text)) = invoice_field_names
  /\ map fst (snd (invoice_fields text)) = invoice_field_names.
Proof.
  unfold invoice_fields. cbv zeta.
  rewrite !put_keys_fst, !put_keys_snd. split; vm_compute; reflexivity.
Qed.

Lemma contract_fields_keys text :
  map fst (fst (contract_fields text)) = contract_field_names
  /\ map fst (snd (contract_fields text)) = contract_field_names.
Proof.
  unfold contract_fields. cbv zeta.
  rewrite !put_keys_fst, !put_keys_snd. split; vm_compute; reflexivity.
Qed.

Lemma round_confidences_keys fc : map fst (round_confidences fc) = map fst fc.
Proof. unfold round_confidences. rewrite map_map. reflexivity. Qed.

(** X5: a successful invoice result always carries the same keys in the
    same order, the nineteen header fields, then line_items, tables and
    pages_processed, whatever was found in the document; a successful
    contract result carries its twelve fields and pages_processed.  The
    field confidences have one entry for each field. *)
Theorem X5_result_keys :
  forall pdf elapsed,
    (success (extract_invoice_data_ml pdf elapsed) = true ->
     map fst (data (extract_invoice_data_ml pdf elapsed))
     = invoice_field_names ++ [u "line_items"; u "tables"; u "pages_processed"]
     /\ map fst (field_confidences (extract_invoice_data_ml pdf elapsed))
        = invoice_field_names)
    /\ (success (extract_contract_data_ml pdf elapsed) = true ->
        map fst (data (extract_contract_data_ml pdf elapsed))
        = contract_field_names ++ [u "pages_processed"]
        /\ map fst (field_confidences (extract_contract_data_ml pdf elapsed))
           = contract_field_names).
Proof.
  intros pdf elapsed. split.
  - unfold extract_invoice_data_ml, bind.
    destruct pdf as [msg|pages]; [discriminate|].
    destruct (foldM read_invoice_page _ _) as [msg|[all_text all_tables]];
      [discriminate|].
    destruct (strip all_text); [discriminate|]. intros _.
    destruct (invoice_fields_keys all_text) as [H1 H2].
    destruct (invoice_fields all_text) as [fields fcs]. simpl in *.
    rewrite round_confidences_keys, !dict_set_add_key, H1, H2.
    split; vm_compute; reflexivity.
  - unfold extract_contract_data_ml, bind.
    destruct pdf as [msg|pages]; [discriminate|].
    destruct (foldM read_text_page _ _) as [msg|all_text]; [discriminate|].
    destruct (strip all_text); [discriminate|]. intros _.
    destruct (contract_fields_keys all_text) as [H1 H2].
    destruct (contract_fields all_text) as [fields fcs]. simpl in *.
    rewrite round_confidences_keys, !dict_set_add_key, H1, H2.
    split; vm_compute; reflexivity.
Qed.

Lemma X5_witness :
  map fst (data (extract_invoice_data_ml scenario_invoice 0.25))
  = invoice_field_names ++ [u "line_items"; u "tables"; u "pages_processed"].
Proof.
  apply (X5_result_keys scenario_invoice 0.25). vm_compute. reflexivity.
Defined.

(** * Line items *)

Lemma enumerate_in {A} (l : list A) : forall n i x,
  In (i, x) (enumerate n l) ->
  (n <= i < n + length l)%nat /\ nth_error l (i - n) = Some x.
Proof.
  induction l as [|y l IH]; simpl; intros n i x H; [contradiction|].
  destruct H as [H|H].
  - inversion H; subst. split; [lia|]. now rewrite Nat.sub_diag.
  - apply IH in H. destruct H as [H1 H2]. split; [lia|].
    replace (i - n)%nat with (S (i - S n)) by lia. exact H2.
Qed.

Lemma flat_map_option_length {A B} (f : A -> option B) l :
  (length (flat_map (fun x => match f x with Some y => [y] | None => [] end) l)
   <= length l)%nat.
Proof.
  induction l as [|x l IH]; simpl; [lia|].
  destruct (f x); simpl; lia.
Qed.

Lemma enumerate_length {A} (l : list A) : forall n, length (enumerate n l) = length l.
Proof. induction l; simpl; intros; [reflexivity|now rewrite IHl]. Qed.

(** The item built from a body row keeps the number of the row. *)
Lemma line_item_line_no headers row_idx r item :
  line_item (_map_line_item_columns headers) row_idx r = Some item ->
  dict_get item (u "line_no") = Some (VInt row_idx)
  /\ row_blank r = false
  /\ truthy (dict_get_val item (u "description"))
     || truthy (dict_get_val item (u "amount")) = true.
Proof.
  unfold line_item. destruct (row_blank r); [discriminate|].
  match goal with
  | |- (if ?c then _ else _) = _ -> _ => destruct c eqn:T; [|discriminate]
  end.
  intros E. inversion E; subst item. clear E. split; [|split; [reflexivity|exact T]].
  destruct (map_columns_cases headers) as [[-> _]|[-> _]]; [|reflexivity].
  rewrite fill_get by apply assign_roles_nodup.
  rewrite assign_roles_get. reflexivity.
Qed.

(** X6: every line item comes from a body row of one of the tables that is
    not blank; its line_no is the index of that row in the table, the header
    being row 0, and it has a description or an amount.  A table gives at
    most one item for each body row. *)
Theorem X6_line_items :
  forall tables full_text item,
    In item (_extract_line_items tables full_text) ->
    exists t n r,
      In t tables
      /\ dict_get item (u "line_no") = Some (VInt n)
      /\ (1 <= n)%nat
      /\ nth_error (ti_raw t) n = Some r
      /\ row_blank r = false
      /\ truthy (dict_get_val item (u "description"))
         || truthy (dict_get_val item (u "amount")) = true
      /\ (length (table_line_items (ti_raw t)) <= length (ti_raw t) - 1)%nat.
Proof.
  intros tables full_text item H.
  unfold _extract_line_items in H. apply in_flat_map in H.
  destruct H as (t & Ht & H). exists t.
  unfold table_line_items in *.
  destruct (ti_raw t) as [|header_row [|r0 body]]; try contradiction.
  destruct (_map_line_item_columns (line_item_headers header_row)) as [|rc col_map] eqn:E;
    [contradiction|].
  rewrite <- E in H. apply in_flat_map in H.
  destruct H as ([n r] & Hin & H). simpl in H.
  destruct (line_item _ n r) as [item'|] eqn:L; [|contradiction].
  destruct H as [->|[]].
  apply line_item_line_no in L. destruct L as (L1 & L2 & L3).
  apply enumerate_in in Hin. destruct Hin as [Hn Hr].
  exists n, r. repeat split; try assumption; try lia.
  - destruct n as [|n]; [lia|]. simpl. simpl in Hr.
    now rewrite Nat.sub_0_r in Hr.
  - match goal with
    | |- (length (flat_map _ ?l) <= _)%nat =>
      pose proof (flat_map_option_length
                    (fun ir : nat * row => line_item (rc :: col_map) (fst ir) (snd ir)) l) as Hl
    end.
    rewrite enumerate_length in Hl. simpl in *. lia.
Qed.

Lemma X6_witness :
  exists t n r,
    In t [{| ti_page := 1; ti_index := 0; ti_raw := table_with_unit_column |}]
    /\ dict_get (hd [] (table_line_items table_with_unit_column)) (u "line_no")
       = Some (VInt n)
    /\ (1 <= n)%nat
    /\ nth_error (ti_raw t) n = Some r
    /\ row_blank r = false
    /\ truthy (dict_get_val (hd [] (table_line_items table_with_unit_column))
                            (u "description"))
       || truthy (dict_get_val (hd [] (table_line_items table_with_unit_column))
                               (u "amount")) = true
    /\ (length (table_line_items (ti_raw t)) <= length (ti_raw t) - 1)%nat.
Proof.
  apply (X6_line_items
           [{| ti_page := 1; ti_index := 0; ti_raw := table_with_unit_column |}] []).
  vm_compute. left. reflexivity.
Defined.
